(** * support_bot: message interpretation and workflow coordination

    A shallow embedding of [main.py]: the phone normaliser, the cached
    category registry, the data-driven grammar parser, the duplicate
    detector with its confirmation protocol, the employee onboarding
    conversation, the per-client history summary and the CRM workflow step.

    Conventions.
    - A Python [str] is a list of Unicode code points ([list N]).  String
      constants are written as UTF-8 literals and decoded by [u].
    - Character classes and case mappings are concrete on ASCII; what the
      interpreter takes from the Unicode character database for code
      points from 128 on is the interface [UnicodeData].
    - Instants are integers counting microseconds, the resolution of both
      [datetime.now()] and the store's [NOW()].
    - The relational store is a map from table prefix to the three tables
      of a department; the chat transport is an outbox of replies; the CRM
      is an oracle for its answers plus a log of the calls that were made.
    - A call whose failure the source catches (the contact search, the
      writing statements of the store) has that failure among its possible
      answers.  A failure that the source lets escape ends the handler at
      that point; such runs are not described here. *)

From stdpp Require Import base option list gmap strings pretty.
From Stdlib Require Import ZArith NArith Ascii Lia Sorted.

Local Open Scope N_scope.

(** ** Python strings *)

Abbreviation char := N (only parsing).
Abbreviation str := (list N) (only parsing).

(** Bytes of a literal of the source file. *)
Fixpoint bytes_of (s : string) : list N :=
  match s with
  | EmptyString => []
  | String a s' => N_of_ascii a :: bytes_of s'
  end.

(** UTF-8 decoding of well-formed input (literals only): one code point per
    lead byte, continuation bytes contribute their low six bits. *)
Fixpoint utf8_cont (k : nat) (acc : N) (bs : list N) : N * list N :=
  match k, bs with
  | S k', b :: bs' => utf8_cont k' (acc * 64 + b mod 64) bs'
  | _, _ => (acc, bs)
  end.

Fixpoint utf8_decode (fuel : nat) (bs : list N) : str :=
  match fuel, bs with
  | S fuel', b :: bs' =>
      let '(cp, rest) :=
        if b <? 128 then (b, bs')
        else if b <? 224 then utf8_cont 1 (b mod 32) bs'
        else if b <? 240 then utf8_cont 2 (b mod 16) bs'
        else utf8_cont 3 (b mod 8) bs' in
      cp :: utf8_decode fuel' rest
  | _, _ => []
  end.

Definition u (s : string) : str :=
  let bs := bytes_of s in utf8_decode (List.length bs) bs.

(** What the interpreter reads from the Unicode character database for the
    code points outside ASCII. *)
Class UnicodeData := {
  (** digit value of a character of category Nd *)
  ucd_decimal : N -> option N;
  (** simple lower-case mapping, used by [re.IGNORECASE] *)
  ucd_tolower : N -> N;
  (** full upper-case mapping, used by [str.upper] *)
  ucd_upper : N -> list N;
  (** full lower-case mapping, used by [str.lower] *)
  ucd_lower : N -> list N;
  (** the Final_Sigma condition of [str.lower]: characters before (nearest
      first) and after a capital sigma *)
  ucd_final_sigma : list N -> list N -> bool
}.

Section Strings.
Context `{UnicodeData}.

Definition is_ascii (c : char) : bool := c <? 128.

(** [[0-9]] in a pattern. *)
Definition is_ascii_digit (c : char) : bool := (48 <=? c) && (c <=? 57).

(** [\d] in a [str] pattern; [\D] is its complement. *)
Definition isdecimal (c : char) : bool :=
  if is_ascii c then is_ascii_digit c
  else match ucd_decimal c with Some _ => true | None => false end.

(** [str.isspace] on one character, which is also [\s] in a [str] pattern. *)
Definition isspace (c : char) : bool :=
  ((9 <=? c) && (c <=? 13)) || ((28 <=? c) && (c <=? 32))
  || (c =? 133) || (c =? 160) || (c =? 5760)
  || ((8192 <=? c) && (c <=? 8202))
  || (c =? 8232) || (c =? 8233) || (c =? 8239) || (c =? 8287) || (c =? 12288).

Definition char_upper (c : char) : str :=
  if is_ascii c then [if (97 <=? c) && (c <=? 122) then c - 32 else c]
  else ucd_upper c.

Definition char_lower (c : char) : str :=
  if is_ascii c then [if (65 <=? c) && (c <=? 90) then c + 32 else c]
  else ucd_lower c.

(** [s.upper()] *)
Definition upper (s : str) : str := flat_map char_upper s.

(** [s.lower()]: a capital sigma (U+03A3) becomes a final or a medial small
    sigma depending on its context, every other character has its own
    mapping. *)
Fixpoint lower_from (seen s : str) : str :=
  match s with
  | [] => []
  | c :: s' =>
      (if c =? 931
       then [if ucd_final_sigma seen s' then 962 else 963]
       else char_lower c) ++ lower_from (c :: seen) s'
  end.

Definition lower (s : str) : str := lower_from [] s.

(** [s.startswith(p)] *)
Fixpoint startswith (p s : str) : bool :=
  match p, s with
  | [], _ => true
  | a :: p', b :: s' => (a =? b) && startswith p' s'
  | _ :: _, [] => false
  end.

Definition mem (c : char) (cs : str) : bool := existsb (N.eqb c) cs.

(** [s.lstrip(chars)]: drops leading characters that occur in [chars]. *)
Fixpoint lstrip_chars (chars s : str) : str :=
  match s with
  | c :: s' => if mem c chars then lstrip_chars chars s' else s
  | [] => []
  end.

(** [s.lstrip()], [s.rstrip()] and [s.strip()] without argument. *)
Fixpoint lstrip (s : str) : str :=
  match s with
  | c :: s' => if isspace c then lstrip s' else s
  | [] => []
  end.

Definition rstrip (s : str) : str := rev (lstrip (rev s)).

Definition strip (s : str) : str := rstrip (lstrip s).

(** Digit value of a decimal character. *)
Definition decimal_value (c : char) : option N :=
  if is_ascii c then (if is_ascii_digit c then Some (c - 48) else None)
  else ucd_decimal c.

(** The digits of an integer literal: decimal characters, single
    underscores only between two of them. *)
Fixpoint int_digits (acc : Z) (after_digit : bool) (s : str) : option Z :=
  match s with
  | [] => if after_digit then Some acc else None
  | c :: s' =>
      if c =? 95 then
        if after_digit
        then match s' with [] => None | _ :: _ => int_digits acc false s' end
        else None
      else
        match decimal_value c with
        | Some d => int_digits (acc * 10 + Z.of_N d)%Z true s'
        | None => None
        end
  end.

(** [int(s)]; [None] stands for [ValueError]. *)
Definition py_int (s : str) : option Z :=
  match strip s with
  | c :: t =>
      if c =? 43 then int_digits 0 false t
      else if c =? 45 then Z.opp <$> int_digits 0 false t
      else int_digits 0 false (c :: t)
  | [] => None
  end.

(** [str(n)] for an integer. *)
Definition str_of_Z (z : Z) : str :=
  (if (z <? 0)%Z then u "-" else []) ++ bytes_of (pretty (Z.abs_N z)).

(** ** Phone normaliser *)

(** [re.sub(r"\D", "", p)] *)
Definition clean_phone (p : str) : str := filter (fun c => Is_true (isdecimal c)) p.

Definition normalize_phone (phone : str) : str :=
  let digits := clean_phone phone in
  let digits := if startswith (u "0") digits then u "38" ++ digits else digits in
  let digits :=
    if negb (startswith (u "380") digits)
    then u "380" ++ lstrip_chars (u "380") digits
    else digits in
  u "+" ++ digits.

End Strings.

(** ** Data model *)

(** Rows of [{prefix}_employees], [{prefix}_categories], [{prefix}_records]. *)
Record employee := {
  e_telegram_id : Z;
  e_name : str;
  e_bitrix_id : Z
}.

Record category := {
  c_code : str;
  c_name : str
}.

Record record_row := {
  r_id : Z;
  r_employee_telegram_id : Z;
  r_category_code : str;
  r_phone : str;
  r_comment : str;
  r_timestamp : Z
}.

(** The three tables of one department. *)
Record tables := {
  t_employees : list employee;
  t_categories : list category;
  t_records : list record_row
}.

Definition no_tables : tables :=
  {| t_employees := []; t_categories := []; t_records := [] |}.

#[global] Instance tables_inhabited : Inhabited tables := populate no_tables.

(** A message sent back to the chat. *)
Inductive markup :=
  | ReplyKeyboardRemove
  | ReplyKeyboardMarkup (keyboard : list (list str)).

Record reply := {
  reply_text : str;
  reply_markup : option markup
}.

(** The calls made to the CRM beyond the contact search. *)
Inductive crm_call :=
  | TaskAdd (title description : str) (responsible_id : Z) (deadline : Z) (contact_id : str)
  | TimelineCommentAdd (contact_id : str) (comment : str) (author_id : Z)
  | TaskComplete (task_id : Z).

(** Process-wide state together with the collaborators' observable state:
    the store, the two cache dictionaries, the messages sent and the CRM
    calls issued so far. *)
Record World := {
  db : gmap string tables;
  categories_cache : gmap string (list category);
  categories_cache_time : gmap string Z;
  outbox : list reply;
  crm_log : list crm_call
}.

Definition set_db (f : gmap string tables -> gmap string tables) (w : World) : World :=
  {| db := f (db w); categories_cache := categories_cache w;
     categories_cache_time := categories_cache_time w;
     outbox := outbox w; crm_log := crm_log w |}.

Definition set_cache (c : gmap string (list category)) (t : gmap string Z) (w : World) : World :=
  {| db := db w; categories_cache := c; categories_cache_time := t;
     outbox := outbox w; crm_log := crm_log w |}.

(** [update.message.reply_text(text, reply_markup=...)] *)
Definition reply_text_to (text : str) (m : option markup) (w : World) : World :=
  {| db := db w; categories_cache := categories_cache w;
     categories_cache_time := categories_cache_time w;
     outbox := outbox w ++ [{| reply_text := text; reply_markup := m |}];
     crm_log := crm_log w |}.

Definition log_crm (c : crm_call) (w : World) : World :=
  {| db := db w; categories_cache := categories_cache w;
     categories_cache_time := categories_cache_time w;
     outbox := outbox w; crm_log := crm_log w ++ [c] |}.

Definition SUPPORT_CHAT_ID : Z := (-1003053461710)%Z.
Definition PRE_TRIAL_CHAT_ID : Z := (-5070042846)%Z.
Definition RESPONSIBLE_ID : Z := 596%Z.

Definition get_department_by_chat_id (chat_id : Z) : option string :=
  if (chat_id =? SUPPORT_CHAT_ID)%Z then Some "support"%string
  else if (chat_id =? PRE_TRIAL_CHAT_ID)%Z then Some "pre_trial"%string
  else None.

Definition get_table_prefix (department : string) : option string :=
  if String.eqb department "support" then Some "support"%string
  else if String.eqb department "pre_trial" then Some "pre_trial"%string
  else None.

(** Lexicographic order on code points, the order of [ORDER BY code]. *)
Fixpoint str_leb (a b : str) : bool :=
  match a, b with
  | [], _ => true
  | _ :: _, [] => false
  | x :: a', y :: b' => (x <? y) || ((x =? y) && str_leb a' b')
  end.

(** [ORDER BY]: insertion into a sorted list; rows that compare equal keep
    their table order. *)
Fixpoint insert_by {A} (leb : A -> A -> bool) (x : A) (l : list A) : list A :=
  match l with
  | [] => [x]
  | y :: l' => if leb x y then x :: l else y :: insert_by leb x l'
  end.

Definition order_by {A} (leb : A -> A -> bool) (l : list A) : list A :=
  foldr (insert_by leb) [] l.

Section Store.
Context `{UnicodeData}.

(** *** Employees *)

(** [SELECT * FROM {prefix}_employees WHERE telegram_id = %s] *)
Definition get_employee_by_telegram_id (telegram_id : Z) (department : string)
    (w : World) : option employee :=
  match get_table_prefix department with
  | None => None
  | Some prefix =>
      find (fun e => (e_telegram_id e =? telegram_id)%Z) (t_employees (db w !!! prefix))
  end.

(** [INSERT ... ON CONFLICT (telegram_id) DO UPDATE] *)
Fixpoint upsert_employee (e : employee) (l : list employee) : list employee :=
  match l with
  | [] => [e]
  | x :: l' =>
      if (e_telegram_id x =? e_telegram_id e)%Z then e :: l'
      else x :: upsert_employee e l'
  end.

(** [fault] tells whether the statement raises, which the function answers
    with a rollback and [False]. *)
Definition add_employee (fault : bool) (telegram_id : Z) (name : str) (bitrix_id : Z)
    (department : string) (w : World) : bool * World :=
  match get_table_prefix department with
  | None => (false, w)
  | Some prefix =>
      if fault then (false, w)
      else
        let t := db w !!! prefix in
        let e := {| e_telegram_id := telegram_id; e_name := name; e_bitrix_id := bitrix_id |} in
        let t' := {| t_employees := upsert_employee e (t_employees t);
                     t_categories := t_categories t; t_records := t_records t |} in
        (true, set_db (insert prefix t') w)
  end.

(** *** Categories *)

(** [SELECT * FROM {prefix}_categories WHERE code = %s] with [code.upper()] *)
Definition get_category_by_code (code : str) (department : string) (w : World)
    : option category :=
  match get_table_prefix department with
  | None => None
  | Some prefix =>
      find (fun c => bool_decide (c_code c = upper code)) (t_categories (db w !!! prefix))
  end.

(** [INSERT ... ON CONFLICT (code) DO UPDATE SET name = EXCLUDED.name] *)
Fixpoint upsert_category (c : category) (l : list category) : list category :=
  match l with
  | [] => [c]
  | x :: l' =>
      if bool_decide (c_code x = c_code c) then c :: l'
      else x :: upsert_category c l'
  end.

(** The cache of the department is dropped after the commit. *)
Definition add_category (fault : bool) (code name : str) (department : string)
    (w : World) : bool * World :=
  match get_table_prefix department with
  | None => (false, w)
  | Some prefix =>
      if fault then (false, w)
      else
        let t := db w !!! prefix in
        let c := {| c_code := upper code; c_name := name |} in
        let t' := {| t_employees := t_employees t;
                     t_categories := upsert_category c (t_categories t);
                     t_records := t_records t |} in
        let w' := set_db (insert prefix t') w in
        (true, set_cache (delete department (categories_cache w'))
                         (delete department (categories_cache_time w')) w')
  end.

(** [DELETE FROM {prefix}_categories WHERE code = %s]; the result is
    [cur.rowcount > 0]. *)
Definition delete_category (fault : bool) (code : str) (department : string)
    (w : World) : bool * World :=
  match get_table_prefix department with
  | None => (false, w)
  | Some prefix =>
      if fault then (false, w)
      else
        let t := db w !!! prefix in
        let keep := filter (fun c => c_code c <> upper code) (t_categories t) in
        let t' := {| t_employees := t_employees t; t_categories := keep;
                     t_records := t_records t |} in
        let w' := set_db (insert prefix t') w in
        (bool_decide (length keep < length (t_categories t))%nat,
         set_cache (delete department (categories_cache w'))
                   (delete department (categories_cache_time w')) w')
  end.

(** [SELECT * FROM {prefix}_categories ORDER BY code] *)
Definition select_categories (prefix : string) (w : World) : list category :=
  order_by (fun a b => str_leb (c_code a) (c_code b)) (t_categories (db w !!! prefix)).

(** The first reading of the clock, [now], decides whether the cache entry
    is fresh; the second, [now'], stamps a new entry.
    [total_seconds() < 60] is [< 60_000_000] microseconds. *)
Definition get_all_categories (now now' : Z) (department : string) (use_cache : bool)
    (w : World) : list category * World :=
  match get_table_prefix department with
  | None => ([], w)
  | Some prefix =>
      let hit :=
        if use_cache then
          match categories_cache w !! department, categories_cache_time w !! department with
          | Some cached, Some t =>
              if (now - t <? 60000000)%Z then Some cached else None
          | _, _ => None
          end
        else None in
      match hit with
      | Some cached => (cached, w)
      | None =>
          let result := select_categories prefix w in
          if use_cache
          then (result, set_cache (<[department := result]> (categories_cache w))
                                  (<[department := now']> (categories_cache_time w)) w)
          else (result, w)
      end
  end.

(** The contract of the listing in the words of the specification: the
    cached value when one is present, less than 60 seconds old and the cache
    is to be used; in every other case the answer of the store, stored with
    the current time stamp. *)
Definition listCategories_contract (now now' : Z) (department prefix : string)
    (use_cache : bool) (w : World) : Prop :=
  let '(result, w') := get_all_categories now now' department use_cache w in
  let fresh :=
    result = select_categories prefix w
    /\ categories_cache w' !! department = Some result
    /\ categories_cache_time w' !! department = Some now' in
  match categories_cache w !! department, categories_cache_time w !! department with
  | Some cached, Some t =>
      if use_cache && (now - t <? 60000000)%Z then result = cached /\ w' = w else fresh
  | _, _ => fresh
  end.

(** *** Records *)

(** Modelled from the spec: the table definition is not part of the source;
    the [id] column is a serial and the [timestamp] column is the creation
    instant ([created_at]) filled in by the store on insertion.
    [None] is returned when the statement raises ([fault]). *)
Definition add_record (fault : bool) (now : Z) (employee_telegram_id : Z)
    (category_code phone comment : str) (department : string) (w : World)
    : option Z * World :=
  match get_table_prefix department with
  | None => (None, w)
  | Some prefix =>
      if fault then (None, w)
      else
        let t := db w !!! prefix in
        let record_id := (Z.of_nat (length (t_records t)) + 1)%Z in
        let r := {| r_id := record_id;
                    r_employee_telegram_id := employee_telegram_id;
                    r_category_code := upper category_code;
                    r_phone := phone; r_comment := comment;
                    r_timestamp := now |} in
        let t' := {| t_employees := t_employees t; t_categories := t_categories t;
                     t_records := t_records t ++ [r] |} in
        (Some record_id, set_db (insert prefix t') w)
  end.

(** [make_interval(mins => m)] in microseconds. *)
Definition minutes_us (m : Z) : Z := (m * 60000000)%Z.
Definition days_us (d : Z) : Z := (d * 86400000000)%Z.

(** The [WHERE] clause of [check_duplicate_record]. *)
Definition duplicate_of (now : Z) (employee_telegram_id : Z) (code phone : str)
    (minutes : Z) (r : record_row) : bool :=
  (r_employee_telegram_id r =? employee_telegram_id)%Z
  && bool_decide (r_category_code r = code)
  && bool_decide (r_phone r = phone)
  && (now - minutes_us minutes <? r_timestamp r)%Z.

(** [SELECT COUNT( * ) ... ] and [count > 0] *)
Definition check_duplicate_record (now : Z) (employee_telegram_id : Z)
    (category_code phone : str) (department : string) (minutes : Z) (w : World) : bool :=
  match get_table_prefix department with
  | None => false
  | Some prefix =>
      let count :=
        length (filter (fun r => Is_true (duplicate_of now employee_telegram_id
                                            (upper category_code) phone minutes r))
                       (t_records (db w !!! prefix))) in
      bool_decide (0 < count)%nat
  end.

(** The records table of a department; a name that is no department has
    none. *)
Definition records_of (department : string) (w : World) : list record_row :=
  match get_table_prefix department with
  | Some prefix => t_records (db w !!! prefix)
  | None => []
  end.

(** A row of the joined result of [get_records_by_phone]; a [LEFT JOIN] that
    finds no partner leaves the name [None]. *)
Record history_row := {
  h_timestamp : Z;
  h_employee_name : option str;
  h_category_name : option str;
  h_category_code : str;
  h_phone : str;
  h_comment : str
}.

Definition join_record (t : tables) (r : record_row) : history_row :=
  {| h_timestamp := r_timestamp r;
     h_employee_name :=
       e_name <$> find (fun e => (e_telegram_id e =? r_employee_telegram_id r)%Z)
                       (t_employees t);
     h_category_name :=
       c_name <$> find (fun c => bool_decide (c_code c = r_category_code r))
                       (t_categories t);
     h_category_code := r_category_code r;
     h_phone := r_phone r;
     h_comment := r_comment r |}.

Definition get_records_by_phone (now : Z) (phone : str) (days : Z) (department : string)
    (w : World) : list history_row :=
  match get_table_prefix department with
  | None => []
  | Some prefix =>
      let t := db w !!! prefix in
      let rows :=
        filter (fun r => r_phone r = phone /\ (now - days_us days < r_timestamp r)%Z)
               (t_records t) in
      order_by (fun a b => (h_timestamp b <=? h_timestamp a)%Z) (join_record t <$> rows)
  end.

End Store.

(** ** Grammar parser *)

(** The fragment of [re] that [parse_message] uses.  Repetition is only
    applied to one-character classes. *)
Inductive regex :=
  | Chr (c : char)
  | Cls (p : char -> bool)
  | Eps
  | Never
  | Seq (r1 r2 : regex)
  | Alt (r1 r2 : regex)
  | Opt (r : regex)
  | Star (p : char -> bool)
  | Group (r : regex).

Definition Plus (p : char -> bool) : regex := Seq (Cls p) (Star p).

Section Parser.
Context `{UnicodeData}.

Definition is_ascii_letter (c : char) : bool :=
  ((65 <=? c) && (c <=? 90)) || ((97 <=? c) && (c <=? 122)).

(** Simple lower-case mapping of one character. *)
Definition tolower (c : char) : char :=
  if is_ascii c then (if (65 <=? c) && (c <=? 90) then c + 32 else c)
  else ucd_tolower c.

(** The entries of [sre_compile._equivalences] for ASCII letters: dotless i
    for [i], long s for [s]. *)
Definition ignorecase_fixes (lo : char) : list char :=
  if lo =? 105 then [305] else if lo =? 115 then [383] else [].

(** How a literal [c] of the pattern is compared with a character [t] of
    the text under [re.IGNORECASE]: an uncased literal must be equal; for
    a cased one the lower-cased text character must be the lower-cased
    literal or one of its equivalents.  For a literal outside ASCII only
    the lower-case mapping is consulted. *)
Definition literal_ignorecase (c t : char) : bool :=
  if is_ascii c then
    if is_ascii_letter c
    then mem (tolower t) (tolower c :: ignorecase_fixes (tolower c))
    else t =? c
  else tolower t =? tolower c.

(** Greedy repetition of a class: longest run first, then shorter ones. *)
Fixpoint run_star (p : char -> bool) (s : str) : list (list str * str * str) :=
  match s with
  | c :: s' =>
      if p c
      then ((fun '(g, m, rest) => (g, c :: m, rest)) <$> run_star p s') ++ [([], [], s)]
      else [([], [], s)]
  | [] => [([], [], s)]
  end.

(** All ways in which [r] matches a prefix of [s], in the order in which the
    backtracking matcher tries them.  Each one lists the texts of the
    groups it closed, the text matched and the rest of the input. *)
Fixpoint run (r : regex) (s : str) : list (list str * str * str) :=
  match r with
  | Chr c =>
      match s with
      | t :: s' => if literal_ignorecase c t then [([], [t], s')] else []
      | [] => []
      end
  | Cls p =>
      match s with
      | t :: s' => if p t then [([], [t], s')] else []
      | [] => []
      end
  | Eps => [([], [], s)]
  | Never => []
  | Seq r1 r2 =>
      flat_map (fun '(g1, m1, s1) =>
                  (fun '(g2, m2, s2) => (g1 ++ g2, m1 ++ m2, s2)) <$> run r2 s1)
               (run r1 s)
  | Alt r1 r2 => run r1 s ++ run r2 s
  | Opt r1 => run r1 s ++ [([], [], s)]
  | Star p => run_star p s
  | Group r1 => (fun '(g, m, s') => (m :: g, m, s')) <$> run r1 s
  end.

(** [re.match(pattern, text)]: the first way found, if any. *)
Definition re_match (r : regex) (text : str) : option (list str * str * str) :=
  head (run r text).

(** A code read as a sequence of literals. *)
Definition literal (code : str) : regex := foldr (fun c r => Seq (Chr c) r) Eps code.

(** ['|'.join(codes)] inside the first group. *)
Definition codes_pattern (codes : list str) : regex :=
  foldr (fun code r => Alt (literal code) r) Never codes.

(** [^({codes_pattern})\s+(\+?[0-9]+)\s*\|\s*(.+)] with [re.IGNORECASE]
    and [re.S].  The codes are spliced into the pattern text unescaped;
    each is read here as literal text, which is what the pattern means for
    the codes that [add_category_code] admits. *)
Definition message_pattern (codes : list str) : regex :=
  Seq (Group (codes_pattern codes))
 (Seq (Plus isspace)
 (Seq (Group (Seq (Opt (Chr 43)) (Plus is_ascii_digit)))
 (Seq (Star isspace)
 (Seq (Chr 124)
 (Seq (Star isspace)
      (Group (Plus (fun _ => true)))))))).

(** *** The language of the pattern, for stating what is accepted *)

(** What it means that [x] is one of the ways in which [r] matches a prefix
    of [s]. *)
Fixpoint matches (r : regex) (s : str) (x : list str * str * str) : Prop :=
  match r with
  | Chr c => exists t s', s = t :: s' /\ literal_ignorecase c t = true /\ x = ([], [t], s')
  | Cls p => exists t s', s = t :: s' /\ p t = true /\ x = ([], [t], s')
  | Eps => x = ([], [], s)
  | Never => False
  | Seq r1 r2 =>
      exists g1 m1 s1 g2 m2 s2,
        matches r1 s (g1, m1, s1) /\ matches r2 s1 (g2, m2, s2)
        /\ x = (g1 ++ g2, m1 ++ m2, s2)
  | Alt r1 r2 => matches r1 s x \/ matches r2 s x
  | Opt r1 => matches r1 s x \/ x = ([], [], s)
  | Star p =>
      exists m rest, x = ([], m, rest) /\ s = m ++ rest /\ Forall (fun c => p c = true) m
  | Group r1 => exists g m s', matches r1 s (g, m, s') /\ x = (m :: g, m, s')
  end.

(** [pre] is [code] up to case, character by character, as the pattern
    compares them. *)
Definition code_matches (code pre : str) : Prop :=
  Forall2 (fun c t => literal_ignorecase c t = true) code pre.

(** An optional plus sign and one or more digits. *)
Definition phone_token (ph : str) : Prop :=
  exists d, d <> [] /\ Forall (fun c => is_ascii_digit c = true) d
            /\ (ph = d \/ ph = 43 :: d).

Definition spaces (ws : str) : Prop := Forall (fun c => isspace c = true) ws.

(** A registered code, white space, a phone token, optional white space,
    the bar, and a remainder that is not empty. *)
Definition message_form (codes : list str) (t : str) : Prop :=
  exists code pre ws1 ph ws2 rest,
    code ∈ codes /\ code_matches code pre
    /\ ws1 <> [] /\ spaces ws1
    /\ phone_token ph
    /\ spaces ws2
    /\ rest <> []
    /\ t = pre ++ ws1 ++ ph ++ ws2 ++ [124] ++ rest.

(** [^[A-Z0-9]{2,10}$], the codes that [add_category_code] admits. *)
Definition valid_code (code : str) : bool :=
  forallb (fun c => ((65 <=? c) && (c <=? 90)) || is_ascii_digit c) code
  && (2 <=? length code)%nat && (length code <=? 10)%nat.

Definition parse_message (now now' : Z) (text : str) (department : string) (w : World)
    : option (str * str * str) * World :=
  let '(categories, w') := get_all_categories now now' department true w in
  match categories with
  | [] => (None, w')
  | _ :: _ =>
      let codes := c_code <$> categories in
      match re_match (message_pattern codes) (strip text) with
      | Some ([code; phone; comment], _, _) =>
          (Some (upper code, normalize_phone phone, strip comment), w')
      | _ => (None, w')
      end
  end.

End Parser.

(** ** CRM collaborator *)

(** A contact as returned by [crm.contact.list]; absent keys read as the
    defaults of [.get]. *)
Record contact := {
  ct_id : str;
  ct_name : str;
  ct_last_name : str;
  ct_phones : list str
}.

(** What the surroundings answer during one handler run. *)
Record Env := {
  (** the instant read from the clocks *)
  env_now : Z;
  (** whether a writing statement of the store raises *)
  env_store_fault : bool;
  (** the result list of [crm.contact.list] for a phone filter; [None] when
      the request raises *)
  env_contact_list : str -> option (list contact);
  (** the task id answered by [task.item.add]; [None] when the status is
      not 200 or the answer carries no id *)
  env_task_add : option Z
}.

(** ** Conversation-scoped state *)

Record pending_record := {
  p_code : str;
  p_phone : str;
  p_comment : str;
  p_category_name : str;
  p_employee_name : str;
  p_responsible_id : Z;
  p_department : string
}.

(** The values kept in [context.user_data]. *)
Inductive value :=
  | VBool (b : bool)
  | VInt (z : Z)
  | VStr (s : str)
  | VDepartment (d : string)
  | VPending (p : pending_record).

(** Truth value of [user_data.get(key)]. *)
Definition truthy (v : option value) : bool :=
  match v with
  | None => false
  | Some (VBool b) => b
  | Some (VInt z) => negb (z =? 0)%Z
  | Some (VStr s) => match s with [] => false | _ :: _ => true end
  | Some (VDepartment d) => negb (String.eqb d "")
  | Some (VPending _) => true
  end.

(** An incoming message: [command] is the name of the bot command it starts
    with, if it is one ([Filters.command]). *)
Record Update := {
  chat_id : Z;
  from_user_id : Z;
  from_user_full_name : str;
  text : str;
  command : option str
}.

Inductive conv_state :=
  | ADD_EMPLOYEE_TG_ID
  | ADD_EMPLOYEE_BITRIX_ID
  | ADD_EMPLOYEE_NAME
  | ADD_CATEGORY_CODE
  | ADD_CATEGORY_NAME
  | CONFIRM_DUPLICATE
  | END.

Section Workflow.
Context `{UnicodeData}.

Definition find_contact_by_phone (env : Env) (phone : str) : option contact :=
  let norm_phone_full := normalize_phone phone in
  match env_contact_list env norm_phone_full with
  | None => None
  | Some [] => None
  | Some result =>
      find (fun c => existsb (fun ph => bool_decide
                                          (clean_phone ph = clean_phone norm_phone_full))
                             (ct_phones c))
           result
  end.

(** The deadline is the instant one day ahead; the timeline comment and the
    completion follow only when the task was created. *)
Definition create_task (env : Env) (contact_id category comment : str)
    (responsible_id : Z) (w : World) : World :=
  let w1 := log_crm (TaskAdd (u "Запис: " ++ category) comment responsible_id
                             (env_now env + days_us 1)%Z contact_id) w in
  match env_task_add env with
  | None => w1
  | Some task_id =>
      let w2 := log_crm (TimelineCommentAdd contact_id
                           (u "📌 " ++ category ++ u ": " ++ comment) responsible_id) w1 in
      log_crm (TaskComplete task_id) w2
  end.

Definition save_record (env : Env) (update : Update)
    (code phone comment category_name employee_name : str) (responsible_id : Z)
    (department : string) (w : World) : World :=
  match find_contact_by_phone env phone with
  | None =>
      reply_text_to (u "❗ Клієнт не знайдений у CRM") (Some ReplyKeyboardRemove) w
  | Some contact =>
      let w1 := create_task env (ct_id contact) category_name comment responsible_id w in
      let '(record_id, w2) :=
        add_record (env_store_fault env) (env_now env) (from_user_id update)
                   code phone comment department w1 in
      match record_id with
      | Some _ =>
          let client_name := strip (ct_name contact ++ u " " ++ ct_last_name contact) in
          reply_text_to (u "✅ Запис збережено: " ++ category_name ++ u " – " ++ client_name)
                        (Some ReplyKeyboardRemove) w2
      | None =>
          reply_text_to (u "⚠ Помилка збереження у БД, але задача у Bitrix створена")
                        (Some ReplyKeyboardRemove) w2
      end
  end.

Definition affirmative_replies : list str := [u "так"; u "yes"; u "y"; u "да"].

Definition handle_duplicate_confirmation (env : Env) (update : Update)
    (user_data : gmap string value) (w : World) : gmap string value * World :=
  let response := lower (strip (text update)) in
  let user_data := <["awaiting_duplicate_confirmation"%string := VBool false]> user_data in
  let w' :=
    if bool_decide (response ∈ affirmative_replies) then
      match user_data !! "pending_record"%string with
      | Some (VPending pending) =>
          save_record env update (p_code pending) (p_phone pending) (p_comment pending)
                      (p_category_name pending) (p_employee_name pending)
                      (p_responsible_id pending) (p_department pending) w
      | _ => w
      end
    else reply_text_to (u "❌ Операція скасована") (Some ReplyKeyboardRemove) w in
  (∅, w').

Definition handle_message (env : Env) (update : Update)
    (user_data : gmap string value) (w : World) : gmap string value * World :=
  match get_department_by_chat_id (chat_id update) with
  | None => (user_data, w)
  | Some department =>
      if truthy (user_data !! "awaiting_duplicate_confirmation"%string)
      then handle_duplicate_confirmation env update user_data w
      else
        let '(parsed, w) :=
          parse_message (env_now env) (env_now env) (text update) department w in
        match parsed with
        | None => (user_data, w)
        | Some (code, phone, comment) =>
            match get_category_by_code code department w with
            | None =>
                (user_data, reply_text_to (u "❌ Невідома категорія: " ++ code) None w)
            | Some category =>
                let category_name := c_name category in
                let '(employee_name, responsible_id) :=
                  match get_employee_by_telegram_id (from_user_id update) department w with
                  | Some employee => (e_name employee, e_bitrix_id employee)
                  | None => (from_user_full_name update, RESPONSIBLE_ID)
                  end in
                let is_duplicate :=
                  check_duplicate_record (env_now env) (from_user_id update)
                                         code phone department 5 w in
                if is_duplicate then
                  let user_data :=
                    <["awaiting_duplicate_confirmation"%string := VBool true]> user_data in
                  let user_data :=
                    <["pending_record"%string :=
                        VPending {| p_code := code; p_phone := phone; p_comment := comment;
                                    p_category_name := category_name;
                                    p_employee_name := employee_name;
                                    p_responsible_id := responsible_id;
                                    p_department := department |}]> user_data in
                  (user_data,
                   reply_text_to
                     (u "⚠️ Ви вже записували категорію " ++ code
                      ++ u " для цього клієнта менше 5 хв тому." ++ [10] ++ u "Продовжити?")
                     (Some (ReplyKeyboardMarkup [[u "Так"; u "Ні"]])) w)
                else
                  (user_data,
                   save_record env update code phone comment category_name employee_name
                               responsible_id department w)
            end
        end
  end.

(** ** Employee onboarding *)

Definition ADMIN_TELEGRAM_IDS : list Z := [727013047; 458757059; 8183276948]%Z.

Definition is_admin (user_id : Z) : bool := bool_decide (user_id ∈ ADMIN_TELEGRAM_IDS).

Definition start_add_employee (update : Update) (user_data : gmap string value)
    (w : World) : conv_state * gmap string value * World :=
  if negb (is_admin (from_user_id update)) then
    (END, user_data, reply_text_to (u "❌ У вас немає доступу до цієї команди") None w)
  else
    match get_department_by_chat_id (chat_id update) with
    | None =>
        (END, user_data,
         reply_text_to (u "❌ Ця команда доступна тільки в чатах підтримки або досудебки")
                       None w)
    | Some department =>
        (ADD_EMPLOYEE_TG_ID,
         <["department"%string := VDepartment department]> user_data,
         reply_text_to (u "Введіть Telegram ID співробітника:") None w)
    end.

Definition add_employee_tg_id (update : Update) (user_data : gmap string value)
    (w : World) : conv_state * gmap string value * World :=
  match py_int (strip (text update)) with
  | Some tg_id =>
      (ADD_EMPLOYEE_BITRIX_ID,
       <["new_employee_tg_id"%string := VInt tg_id]> user_data,
       reply_text_to (u "Введіть Bitrix ID співробітника:") None w)
  | None =>
      (ADD_EMPLOYEE_TG_ID, user_data,
       reply_text_to (u "❌ Невірний формат. Введіть число (Telegram ID):") None w)
  end.

Definition add_employee_bitrix_id (update : Update) (user_data : gmap string value)
    (w : World) : conv_state * gmap string value * World :=
  match py_int (strip (text update)) with
  | Some bitrix_id =>
      (ADD_EMPLOYEE_NAME,
       <["new_employee_bitrix_id"%string := VInt bitrix_id]> user_data,
       reply_text_to (u "Введіть ПІБ співробітника:") None w)
  | None =>
      (ADD_EMPLOYEE_BITRIX_ID, user_data,
       reply_text_to (u "❌ Невірний формат. Введіть число (Bitrix ID):") None w)
  end.

(** A missing key raises [KeyError], which leaves the conversation where it
    was. *)
Definition add_employee_name (env : Env) (update : Update)
    (user_data : gmap string value) (w : World)
    : conv_state * gmap string value * World :=
  let name := strip (text update) in
  match user_data !! "new_employee_tg_id"%string,
        user_data !! "new_employee_bitrix_id"%string,
        user_data !! "department"%string with
  | Some (VInt tg_id), Some (VInt bitrix_id), Some (VDepartment department) =>
      let '(success, w) :=
        add_employee (env_store_fault env) tg_id name bitrix_id department w in
      let w :=
        if success then
          reply_text_to (u "✅ Співробітник додано:" ++ [10]
                         ++ u "• Telegram ID: " ++ str_of_Z tg_id ++ [10]
                         ++ u "• Bitrix ID: " ++ str_of_Z bitrix_id ++ [10]
                         ++ u "• ПІБ: " ++ name) None w
        else reply_text_to (u "❌ Помилка при додаванні співробітника") None w in
      (END, ∅, w)
  | _, _, _ => (ADD_EMPLOYEE_NAME, user_data, w)
  end.

Definition cancel_conversation (update : Update) (user_data : gmap string value)
    (w : World) : conv_state * gmap string value * World :=
  (END, ∅, reply_text_to (u "❌ Операція скасована") None w).

(** The [ConversationHandler] for [/add_employee].  Without an open
    conversation ([END]) only the entry point is looked at.  In an open
    one, text that is no command goes to the handler of the current state
    and [/cancel] to the fallback; any other command is not for this
    handler. *)
Definition add_employee_handler (env : Env) (state : conv_state) (update : Update)
    (user_data : gmap string value) (w : World)
    : conv_state * gmap string value * World :=
  match state with
  | END =>
      match command update with
      | Some name =>
          if bool_decide (name = u "add_employee")
          then start_add_employee update user_data w
          else (state, user_data, w)
      | None => (state, user_data, w)
      end
  | _ =>
      match command update with
      | Some name =>
          if bool_decide (name = u "cancel") then cancel_conversation update user_data w
          else (state, user_data, w)
      | None =>
          match state with
          | ADD_EMPLOYEE_TG_ID => add_employee_tg_id update user_data w
          | ADD_EMPLOYEE_BITRIX_ID => add_employee_bitrix_id update user_data w
          | ADD_EMPLOYEE_NAME => add_employee_name env update user_data w
          | _ => (state, user_data, w)
          end
      end
  end.

(** ** Per-client history *)

(** [Counter(keys)]: counts in order of first occurrence. *)
Fixpoint counter_add {K} `{EqDecision K} (k : K) (c : list (K * nat)) : list (K * nat) :=
  match c with
  | [] => [(k, 1%nat)]
  | (k', n) :: c' =>
      if decide (k' = k) then (k', S n) :: c' else (k', n) :: counter_add k c'
  end.

Definition Counter {K} `{EqDecision K} (keys : list K) : list (K * nat) :=
  foldl (fun c k => counter_add k c) [] keys.

Record info_summary := {
  total : nat;
  by_emp : list (str * nat);
  by_cat : list (str * option str * nat);
  latest : list history_row
}.

(** Truth value of a string that may be [None]. *)
Definition nonempty (s : option str) : bool :=
  match s with Some (_ :: _) => true | _ => false end.

(** The aggregation of [handle_info_command] over the fetched records. *)
Definition info_aggregation (records : list history_row) : info_summary :=
  {| total := length records;
     by_emp :=
       Counter (omap (fun r => if nonempty (h_employee_name r)
                               then h_employee_name r else None) records);
     by_cat :=
       Counter (omap (fun r => if nonempty (Some (h_category_code r))
                               then Some (h_category_code r, h_category_name r)
                               else None) records);
     latest := take 5 records |}.

Definition handle_info_summary (now : Z) (phone_raw : str) (days : Z)
    (department : string) (w : World) : info_summary :=
  let phone := normalize_phone phone_raw in
  info_aggregation (get_records_by_phone now phone days department w).

End Workflow.

(** ** Further store functions, statistics and category onboarding *)

Record team_stats := {
  ts_total : nat;
  ts_by_employee : list (option str * nat);
  ts_by_category : list (option str * option str * nat)
}.

Section Administration.
Context `{UnicodeData}.

(** [DELETE FROM {prefix}_employees WHERE telegram_id = %s]; the result is
    [cur.rowcount > 0]. *)
Definition delete_employee (fault : bool) (telegram_id : Z) (department : string)
    (w : World) : bool * World :=
  match get_table_prefix department with
  | None => (false, w)
  | Some prefix =>
      if fault then (false, w)
      else
        let t := db w !!! prefix in
        let keep := filter (fun e => e_telegram_id e <> telegram_id) (t_employees t) in
        let t' := {| t_employees := keep; t_categories := t_categories t;
                     t_records := t_records t |} in
        (bool_decide (length keep < length (t_employees t))%nat,
         set_db (insert prefix t') w)
  end.

(** [SELECT * FROM {prefix}_employees ORDER BY name] *)
Definition get_all_employees (department : string) (w : World) : list employee :=
  match get_table_prefix department with
  | None => []
  | Some prefix =>
      order_by (fun a b => str_leb (e_name a) (e_name b)) (t_employees (db w !!! prefix))
  end.

(** The three queries of [get_team_stats] run in one transaction, so that
    [NOW()] is the same instant in each.  [GROUP BY] puts the rows without a
    partner into one group of its own; the groups are then ordered by
    descending count, groups of equal count in the order of their first
    row. *)
Definition get_team_stats (now : Z) (days : Z) (department : string) (w : World)
    : team_stats :=
  match get_table_prefix department with
  | None => {| ts_total := 0; ts_by_employee := []; ts_by_category := [] |}
  | Some prefix =>
      let t := db w !!! prefix in
      let rows := filter (fun r => (now - days_us days < r_timestamp r)%Z) (t_records t) in
      let by_count {K} (a b : K * nat) := (b.2 <=? a.2)%nat in
      {| ts_total := length rows;
         ts_by_employee :=
           order_by by_count
             (Counter ((fun r =>
                          e_name <$> find (fun e => (e_telegram_id e
                                                     =? r_employee_telegram_id r)%Z)
                                          (t_employees t)) <$> rows));
         ts_by_category :=
           order_by by_count
             (Counter ((fun r =>
                          match find (fun c => bool_decide (c_code c = r_category_code r))
                                     (t_categories t) with
                          | Some c => (Some (c_name c), Some (c_code c))
                          | None => (None, None)
                          end) <$> rows)) |}
  end.

(** [re.match(r"^[A-Z0-9]{2,10}$", code)]: the dollar also matches before a
    line feed that ends the text. *)
Definition code_format (code : str) : bool :=
  valid_code code
  || match last code with
     | Some 10 => valid_code (removelast code)
     | _ => false
     end.

Definition start_add_category (update : Update) (user_data : gmap string value)
    (w : World) : conv_state * gmap string value * World :=
  if negb (is_admin (from_user_id update)) then
    (END, user_data, reply_text_to (u "❌ У вас немає доступу до цієї команди") None w)
  else
    match get_department_by_chat_id (chat_id update) with
    | None =>
        (END, user_data,
         reply_text_to (u "❌ Ця команда доступна тільки в чатах підтримки або досудебки")
                       None w)
    | Some department =>
        (ADD_CATEGORY_CODE,
         <["department"%string := VDepartment department]> user_data,
         reply_text_to (u "Введіть код категорії (наприклад, CL1):") None w)
    end.

Definition add_category_code (update : Update) (user_data : gmap string value)
    (w : World) : conv_state * gmap string value * World :=
  let code := upper (strip (text update)) in
  if negb (code_format code) then
    (ADD_CATEGORY_CODE, user_data,
     reply_text_to (u "❌ Невірний формат коду. Використовуйте 2-10 літер/цифр:") None w)
  else
    (ADD_CATEGORY_NAME,
     <["new_category_code"%string := VStr code]> user_data,
     reply_text_to (u "Введіть назву категорії:") None w).

(** A missing key raises [KeyError], which leaves the conversation where it
    was. *)
Definition add_category_name (env : Env) (update : Update)
    (user_data : gmap string value) (w : World)
    : conv_state * gmap string value * World :=
  let name := strip (text update) in
  match user_data !! "new_category_code"%string, user_data !! "department"%string with
  | Some (VStr code), Some (VDepartment department) =>
      let '(success, w) := add_category (env_store_fault env) code name department w in
      let w :=
        if success
        then reply_text_to (u "✅ Категорія додано: " ++ code ++ u " — " ++ name) None w
        else reply_text_to (u "❌ Помилка при додаванні категорії") None w in
      (END, ∅, w)
  | _, _ => (ADD_CATEGORY_NAME, user_data, w)
  end.

(** The [ConversationHandler] for [/add_category], read as
    [add_employee_handler]. *)
Definition add_category_handler (env : Env) (state : conv_state) (update : Update)
    (user_data : gmap string value) (w : World)
    : conv_state * gmap string value * World :=
  match state with
  | END =>
      match command update with
      | Some name =>
          if bool_decide (name = u "add_category")
          then start_add_category update user_data w
          else (state, user_data, w)
      | None => (state, user_data, w)
      end
  | _ =>
      match command update with
      | Some name =>
          if bool_decide (name = u "cancel") then cancel_conversation update user_data w
          else (state, user_data, w)
      | None =>
          match state with
          | ADD_CATEGORY_CODE => add_category_code update user_data w
          | ADD_CATEGORY_NAME => add_category_name env update user_data w
          | _ => (state, user_data, w)
          end
      end
  end.

End Administration.

(** ** Relations between two states of the world *)

(** From [w] to [w'] no employee and no category changed and no record was
    removed or altered: in every department the old records are the first
    of the new ones, followed by at most [n] more. *)
Definition records_appended (n : nat) (w w' : World) : Prop :=
  forall prefix,
    t_employees (db w' !!! prefix) = t_employees (db w !!! prefix)
    /\ t_categories (db w' !!! prefix) = t_categories (db w !!! prefix)
    /\ exists new, t_records (db w' !!! prefix) = t_records (db w !!! prefix) ++ new
                   /\ (length new <= n)%nat.

(** Every cache entry lists what the store would answer now. *)
Definition cache_coherent (w : World) : Prop :=
  forall department prefix cached,
    get_table_prefix department = Some prefix ->
    categories_cache w !! department = Some cached ->
    cached = select_categories prefix w.

(** A table covering the Latin-1 and Cyrillic letters and the Arabic-Indic
    digits, for running the definitions on concrete text. *)
Definition sample_decimal (c : N) : option N :=
  if (1632 <=? c) && (c <=? 1641) then Some (c - 1632) else None.

Definition sample_tolower (c : N) : N :=
  if (192 <=? c) && (c <=? 222) && negb (c =? 215) then c + 32
  else if c =? 304 then 105
  else if (1024 <=? c) && (c <=? 1039) then c + 80
  else if (1040 <=? c) && (c <=? 1071) then c + 32
  else if c =? 1168 then 1169
  else if c =? 8490 then 107
  else c.

Definition sample_toupper (c : N) : N :=
  if (224 <=? c) && (c <=? 254) && negb (c =? 247) then c - 32
  else if c =? 305 then 73
  else if c =? 383 then 83
  else if (1072 <=? c) && (c <=? 1103) then c - 32
  else if (1104 <=? c) && (c <=? 1119) then c - 80
  else if c =? 1169 then 1168
  else c.

#[local] Instance ucd_sample : UnicodeData := {|
  ucd_decimal := sample_decimal;
  ucd_tolower := sample_tolower;
  ucd_upper := fun c => [sample_toupper c];
  ucd_lower := fun c => if c =? 304 then [105; 775] else [sample_tolower c];
  ucd_final_sigma := fun _ _ => false
|}.

Section Examples.
#[local] Existing Instance ucd_sample.

Definition demo_categories : list category :=
  [ {| c_code := u "CL1"; c_name := u "Complaint" |} ].

Definition demo_world : World :=
  {| db := {[ "support"%string :=
                {| t_employees := []; t_categories := demo_categories; t_records := [] |} ]};
     categories_cache := ∅; categories_cache_time := ∅;
     outbox := []; crm_log := [] |}.

(** One record, written at the instant 400 s. *)
Definition demo_record : record_row :=
  {| r_id := 1; r_employee_telegram_id := 42; r_category_code := u "CL1";
     r_phone := u "+380631234567"; r_comment := u "x"; r_timestamp := 400000000 |}.

Definition recorded_world : World :=
  {| db := {[ "support"%string :=
                {| t_employees := []; t_categories := demo_categories;
                   t_records := [demo_record] |} ]};
     categories_cache := ∅; categories_cache_time := ∅;
     outbox := []; crm_log := [] |}.

(** The store of [demo_world] behind a cache entry, taken at the instant 0,
    that lists no category. *)
Definition cached_world : World :=
  {| db := db demo_world;
     categories_cache := {[ "support"%string := [] ]};
     categories_cache_time := {[ "support"%string := 0%Z ]};
     outbox := []; crm_log := [] |}.

(** A record whose employee and category have been deleted since. *)
Definition orphan_world : World :=
  {| db := {[ "support"%string :=
                {| t_employees := []; t_categories := []; t_records := [demo_record] |} ]};
     categories_cache := ∅; categories_cache_time := ∅;
     outbox := []; crm_log := [] |}.

(** A CRM that knows nobody. *)
Definition empty_crm : Env :=
  {| env_now := 1000; env_store_fault := false;
     env_contact_list := fun _ => Some []; env_task_add := Some 7%Z |}.

Definition demo_update (t : str) : Update :=
  {| chat_id := SUPPORT_CHAT_ID; from_user_id := 42; from_user_full_name := u "Ann";
     text := t; command := None |}.

(** A CRM that knows the client of the demo record. *)
Definition known_crm : Env :=
  {| env_now := 460000000; env_store_fault := false;
     env_contact_list := fun _ =>
       Some [ {| ct_id := u "15"; ct_name := u "Olha"; ct_last_name := u "K";
                 ct_phones := [u "+380 (63) 123-45-67"] |} ];
     env_task_add := Some 7%Z |}.

Definition cancel_update : Update :=
  {| chat_id := SUPPORT_CHAT_ID; from_user_id := 727013047; from_user_full_name := u "Admin";
     text := u "/cancel"; command := Some (u "cancel") |}.

(** An administrator opens the employee conversation and answers it. *)
Definition start_update : Update :=
  {| chat_id := SUPPORT_CHAT_ID; from_user_id := 727013047; from_user_full_name := u "Admin";
     text := u "/add_employee"; command := Some (u "add_employee") |}.

Definition admin_text (t : str) : Update :=
  {| chat_id := SUPPORT_CHAT_ID; from_user_id := 727013047; from_user_full_name := u "Admin";
     text := t; command := None |}.

Definition start_category_update : Update :=
  {| chat_id := SUPPORT_CHAT_ID; from_user_id := 727013047; from_user_full_name := u "Admin";
     text := u "/add_category"; command := Some (u "add_category") |}.

(** A user who is no administrator asks for the employee conversation. *)
Definition intruder_update : Update :=
  {| chat_id := SUPPORT_CHAT_ID; from_user_id := 42; from_user_full_name := u "Ann";
     text := u "/add_employee"; command := Some (u "add_employee") |}.

(** The record that a confirmed duplicate adds to [recorded_world]. *)
Definition confirmed_record : record_row :=
  {| r_id := 2; r_employee_telegram_id := 42; r_category_code := u "CL1";
     r_phone := u "+380631234567"; r_comment := u "x"; r_timestamp := 460000000 |}.

(** The conversation state after a duplicate was detected. *)
Definition awaiting_data : gmap string value :=
  <["pending_record"%string :=
      VPending {| p_code := u "CL1"; p_phone := u "+380631234567"; p_comment := u "x";
                  p_category_name := u "Complaint"; p_employee_name := u "Ann";
                  p_responsible_id := 596; p_department := "support" |}]>
    (<["awaiting_duplicate_confirmation"%string := VBool true]> ∅).

End Examples.

(** * Properties *)

Section StringFacts.
Context `{UnicodeData}.

Lemma clean_phone_decimal (p : str) :
  Forall (fun c => isdecimal c = true) (clean_phone p).
Proof.
  unfold clean_phone. induction p as [|c p IH]; simpl; [constructor|].
  destruct (isdecimal c) eqn:E; simpl.
  - rewrite filter_cons_True by (rewrite E; exact I). constructor; assumption.
  - rewrite filter_cons_False by (rewrite E; exact id). assumption.
Qed.

Lemma clean_phone_fixed (d : str) :
  Forall (fun c => isdecimal c = true) d -> clean_phone d = d.
Proof.
  unfold clean_phone. induction 1 as [|c d Hc _ IH]; [reflexivity|].
  rewrite filter_cons_True by (rewrite Hc; exact I). now rewrite IH.
Qed.

Lemma lstrip_chars_suffix (chars s : str) :
  exists pre, s = pre ++ lstrip_chars chars s.
Proof.
  induction s as [|c s [pre IH]]; simpl.
  - now exists [].
  - destruct (mem c chars).
    + exists (c :: pre). simpl. now rewrite <- IH.
    + now exists [].
Qed.

Lemma Forall_lstrip_chars (P : N -> Prop) (chars s : str) :
  Forall P s -> Forall P (lstrip_chars chars s).
Proof.
  intros Hs. destruct (lstrip_chars_suffix chars s) as [pre E].
  rewrite E in Hs. now apply Forall_app in Hs.
Qed.

Lemma startswith_app (p s : str) :
  startswith p s = true <-> exists t, s = p ++ t.
Proof.
  revert s. induction p as [|a p IH]; intros s; cbn [startswith].
  - split; [exists s; reflexivity | reflexivity].
  - destruct s as [|b s].
    + split; [discriminate | intros [t Ht]; discriminate].
    + rewrite andb_true_iff, N.eqb_eq, IH. split.
      * intros [-> [t ->]]. now exists t.
      * intros [t Ht]. injection Ht as -> ->. split; [reflexivity | now exists t].
Qed.

(** The shape of every result: a plus sign, the country code, decimal digits. *)
Lemma normalize_phone_shape (phone : str) :
  exists rest, normalize_phone phone = u "+380" ++ rest
               /\ Forall (fun c => isdecimal c = true) rest.
Proof.
  unfold normalize_phone.
  pose proof (clean_phone_decimal phone) as Hd.
  set (d := clean_phone phone) in *. clearbody d.
  destruct (startswith (u "0") d) eqn:E0.
  - apply startswith_app in E0 as [t ->].
    exists t. split; [reflexivity|]. now inversion Hd.
  - destruct (startswith (u "380") d) eqn:E380; cbn [negb].
    + apply startswith_app in E380 as [t ->].
      exists t. split; [reflexivity|].
      change (u "380" ++ t) with ([51; 56; 48] ++ t) in Hd.
      now apply Forall_app in Hd.
    + exists (lstrip_chars (u "380") d). split; [reflexivity|].
      now apply Forall_lstrip_chars.
Qed.

Lemma normalize_phone_canonical (d : str) :
  Forall (fun c => isdecimal c = true) d ->
  normalize_phone (u "+380" ++ d) = u "+380" ++ d.
Proof.
  intros Hd. unfold normalize_phone.
  assert (E : clean_phone (u "+380" ++ d) = u "380" ++ d).
  { change (u "+380" ++ d) with (43 :: u "380" ++ d).
    unfold clean_phone. rewrite filter_cons_False by exact id.
    apply clean_phone_fixed.
    change (u "380" ++ d) with (51 :: 56 :: 48 :: d).
    repeat (constructor; [reflexivity|]). assumption. }
  rewrite E. reflexivity.
Qed.

End StringFacts.

(** ** Phone normaliser *)

Section PhoneNormalizer.
Context `{UnicodeData}.

(** C10: for every input, the empty one and those without any digit
    included, [normalize_phone] yields a plus sign followed by digits only,
    the first three of which are the country code 380; on the empty input
    the result is exactly "+380".  The function is total: there is no input
    on which it fails. *)
Theorem normalize_phone_always_prefixed (phone : str) :
  (exists rest, normalize_phone phone = u "+380" ++ rest
                /\ Forall (fun c => isdecimal c = true) (u "380" ++ rest))
  /\ normalize_phone (u "") = u "+380".
Proof.
  split; [|reflexivity].
  destruct (normalize_phone_shape phone) as (rest & E & Hrest).
  exists rest. split; [exact E|].
  change (u "380" ++ rest) with (51 :: 56 :: 48 :: rest).
  repeat (constructor; [reflexivity|]). exact Hrest.
Qed.

(** C7: normalising twice is the same as normalising once, and a phone that
    already has the canonical form, "+380" followed by digits, is returned
    unchanged. *)
Theorem normalize_phone_idempotent (phone : str) :
  normalize_phone (normalize_phone phone) = normalize_phone phone
  /\ (forall digits, Forall (fun c => isdecimal c = true) digits ->
        normalize_phone (u "+380" ++ digits) = u "+380" ++ digits).
Proof.
  split; [|exact normalize_phone_canonical].
  destruct (normalize_phone_shape phone) as (rest & -> & Hrest).
  now apply normalize_phone_canonical.
Qed.

End PhoneNormalizer.

Lemma normalize_phone_idempotent_witness :
  Forall (fun c => isdecimal c = true) (u "631234567")
  /\ normalize_phone (u "+380631234567") = u "+380631234567".
Proof.
  assert (Hd : Forall (fun c => isdecimal c = true) (u "631234567")).
  { repeat constructor. }
  split; [exact Hd|].
  exact (proj2 (normalize_phone_idempotent []) (u "631234567") Hd).
Defined.

(** ** CRM workflow *)

Section CrmWorkflow.
Context `{UnicodeData}.

(** C1: when the contact search finds nobody for the phone, [save_record]
    only tells the user that the client is unknown: no table of any
    department changes, no task is created, nothing else is sent. *)
Theorem save_record_unknown_client (env : Env) (update : Update)
    (code phone comment category_name employee_name : str) (responsible_id : Z)
    (department : string) (w : World) :
  find_contact_by_phone env phone = None ->
  let w' := save_record env update code phone comment category_name employee_name
                        responsible_id department w in
  db w' = db w
  /\ crm_log w' = crm_log w
  /\ outbox w' = outbox w ++ [{| reply_text := u "❗ Клієнт не знайдений у CRM";
                                 reply_markup := Some ReplyKeyboardRemove |}].
Proof.
  intros Hnone. unfold save_record. rewrite Hnone. cbn. auto.
Qed.

End CrmWorkflow.


Lemma save_record_unknown_client_witness :
  find_contact_by_phone empty_crm (u "+380631234567") = None
  /\ db (save_record empty_crm (demo_update (u "x")) (u "CL1") (u "+380631234567")
                     (u "x") (u "Complaint") (u "Ann") 596 "support" demo_world)
     = db demo_world.
Proof.
  split; [reflexivity|].
  refine (proj1 (save_record_unknown_client empty_crm (demo_update (u "x")) (u "CL1")
                   (u "+380631234567") (u "x") (u "Complaint") (u "Ann") 596
                   "support" demo_world _)).
  reflexivity.
Defined.

(** ** Duplicate detector *)

Section DuplicateDetector.
Context `{UnicodeData}.

Lemma filter_nonempty {A} (P : A -> Prop) `{forall x, Decision (P x)} (l : list A) :
  bool_decide (0 < length (filter P l))%nat = true <-> exists x, x ∈ l /\ P x.
Proof.
  rewrite bool_decide_eq_true. split.
  - intros Hlen. destruct (filter P l) as [|x l'] eqn:E; [simpl in Hlen; lia|].
    exists x. assert (Hx : x ∈ filter P l) by (rewrite E; left).
    apply list_elem_of_filter in Hx. tauto.
  - intros (x & Hx & HP).
    assert (Hin : x ∈ filter P l) by (apply list_elem_of_filter; auto).
    destruct (filter P l); [inversion Hin | simpl; lia].
Qed.

Lemma duplicate_of_true now e code phone minutes r :
  duplicate_of now e code phone minutes r = true <->
  r_employee_telegram_id r = e /\ r_category_code r = code /\ r_phone r = phone
  /\ (now - minutes_us minutes < r_timestamp r)%Z.
Proof.
  unfold duplicate_of.
  rewrite !andb_true_iff, !bool_decide_eq_true, Z.eqb_eq, Z.ltb_lt. tauto.
Qed.

(** What the query answers, in full. *)
Lemma check_duplicate_record_true now e code phone department minutes w :
  check_duplicate_record now e code phone department minutes w = true <->
  exists r, r ∈ records_of department w
            /\ r_employee_telegram_id r = e /\ r_category_code r = upper code
            /\ r_phone r = phone /\ (now - minutes_us minutes < r_timestamp r)%Z.
Proof.
  unfold check_duplicate_record, records_of.
  destruct (get_table_prefix department) as [prefix|].
  - rewrite filter_nonempty. split.
    + intros (r & Hr & Hd). apply Is_true_true, duplicate_of_true in Hd. eauto.
    + intros (r & Hr & Hd). exists r. split; [exact Hr|].
      now apply Is_true_true, duplicate_of_true.
  - split; [discriminate|]. intros (r & Hr & _). inversion Hr.
Qed.

(** C3: with the window of five minutes the check answers true as soon as
    the department holds a record of the same employee, category (in its
    stored upper-case form) and phone that is less than five minutes old at
    the instant of the check, and false when every such record is five
    minutes and one second old or older. *)
Theorem check_duplicate_five_minutes (now : Z) (employee_telegram_id : Z)
    (category_code phone : str) (department : string) (w : World) :
  ((exists r, r ∈ records_of department w
              /\ r_employee_telegram_id r = employee_telegram_id
              /\ r_category_code r = upper category_code
              /\ r_phone r = phone
              /\ (now - r_timestamp r < minutes_us 5)%Z) ->
   check_duplicate_record now employee_telegram_id category_code phone department 5 w
   = true)
  /\ ((forall r, r ∈ records_of department w ->
                 r_employee_telegram_id r = employee_telegram_id ->
                 r_category_code r = upper category_code ->
                 r_phone r = phone ->
                 (minutes_us 5 + 1000000 <= now - r_timestamp r)%Z) ->
      check_duplicate_record now employee_telegram_id category_code phone department 5 w
      = false).
Proof.
  split.
  - intros (r & Hr & He & Hc & Hp & Ht).
    apply check_duplicate_record_true. exists r. repeat split; try assumption. lia.
  - intros Hold.
    destruct (check_duplicate_record now employee_telegram_id category_code phone
                department 5 w) eqn:E; [|reflexivity].
    apply check_duplicate_record_true in E as (r & Hr & He & Hc & Hp & Ht).
    specialize (Hold r Hr He Hc Hp). lia.
Qed.

End DuplicateDetector.

Lemma check_duplicate_five_minutes_witness :
  check_duplicate_record 400000000 42 (u "cl1") (u "+380631234567") "support" 5
    recorded_world = true
  /\ check_duplicate_record 701000000 42 (u "cl1") (u "+380631234567") "support" 5
       recorded_world = false.
Proof.
  pose proof (check_duplicate_five_minutes 400000000 42 (u "cl1") (u "+380631234567")
                "support" recorded_world) as [Hnew _].
  pose proof (check_duplicate_five_minutes 701000000 42 (u "cl1") (u "+380631234567")
                "support" recorded_world) as [_ Hold].
  split.
  - apply Hnew. exists demo_record. vm_compute. repeat split; try reflexivity. left.
  - apply Hold. intros r Hr _ _ _.
    apply list_elem_of_singleton in Hr. subst r. vm_compute. discriminate.
Defined.

(** ** Category registry *)

Section CategoryRegistry.
Context `{UnicodeData}.

Lemma elem_of_insert_by {A} (leb : A -> A -> bool) (a x : A) (l : list A) :
  x ∈ insert_by leb a l <-> x = a \/ x ∈ l.
Proof.
  induction l as [|y l IH]; simpl.
  - rewrite list_elem_of_singleton, elem_of_nil. tauto.
  - destruct (leb a y).
    + apply elem_of_cons.
    + rewrite !elem_of_cons, IH. tauto.
Qed.

Lemma elem_of_order_by {A} (leb : A -> A -> bool) (x : A) (l : list A) :
  x ∈ order_by leb l <-> x ∈ l.
Proof.
  unfold order_by. induction l as [|y l IH]; simpl; [reflexivity|].
  rewrite elem_of_insert_by, elem_of_cons, IH. reflexivity.
Qed.

Lemma elem_of_upsert_category (c : category) (l : list category) :
  c ∈ upsert_category c l.
Proof.
  induction l as [|x l IH]; simpl; [left|].
  destruct (bool_decide (c_code x = c_code c)); [left | right; exact IH].
Qed.

(** Without a cache entry for the department the store is queried. *)
Lemma get_all_categories_miss now now' department prefix use_cache w :
  get_table_prefix department = Some prefix ->
  categories_cache w !! department = None ->
  get_all_categories now now' department use_cache w
  = (select_categories prefix w,
     if use_cache
     then set_cache (<[department := select_categories prefix w]> (categories_cache w))
                    (<[department := now']> (categories_cache_time w)) w
     else w).
Proof.
  intros Hp Hc. unfold get_all_categories. rewrite Hp, Hc.
  destruct use_cache; reflexivity.
Qed.

(** C5: adding (or renaming) a category and deleting one both drop the
    cache entry of the department as part of the committed mutation, so
    that the next listing for the department, at any instant and with or
    without use of the cache, is the result of a fresh query of the store
    as the mutation left it: it lists the added category and no longer
    lists the deleted code. *)
Theorem category_mutation_invalidates_cache (code name : str)
    (department prefix : string) (w : World) (now now' : Z) (use_cache : bool) :
  get_table_prefix department = Some prefix ->
  let wa := (add_category false code name department w).2 in
  let wd := (delete_category false code department w).2 in
  (categories_cache wa !! department = None
   /\ categories_cache_time wa !! department = None
   /\ (get_all_categories now now' department use_cache wa).1 = select_categories prefix wa
   /\ {| c_code := upper code; c_name := name |}
        ∈ (get_all_categories now now' department use_cache wa).1)
  /\ (categories_cache wd !! department = None
      /\ categories_cache_time wd !! department = None
      /\ (get_all_categories now now' department use_cache wd).1
         = select_categories prefix wd
      /\ forall c, c ∈ (get_all_categories now now' department use_cache wd).1 ->
                   c_code c <> upper code).
Proof.
  intros Hp wa wd. split.
  - assert (Hc : categories_cache wa !! department = None).
    { subst wa. unfold add_category. rewrite Hp. cbn. apply lookup_delete_eq. }
    assert (Ht : categories_cache_time wa !! department = None).
    { subst wa. unfold add_category. rewrite Hp. cbn. apply lookup_delete_eq. }
    rewrite (get_all_categories_miss _ _ _ _ _ _ Hp Hc). cbn [fst].
    repeat split; try assumption.
    unfold select_categories. apply elem_of_order_by.
    subst wa. unfold add_category. rewrite Hp. cbn.
    rewrite lookup_total_insert_eq. cbn. apply elem_of_upsert_category.
  - assert (Hc : categories_cache wd !! department = None).
    { subst wd. unfold delete_category. rewrite Hp. cbn. apply lookup_delete_eq. }
    assert (Ht : categories_cache_time wd !! department = None).
    { subst wd. unfold delete_category. rewrite Hp. cbn. apply lookup_delete_eq. }
    rewrite (get_all_categories_miss _ _ _ _ _ _ Hp Hc). cbn [fst].
    repeat split; try assumption.
    intros c Hin. unfold select_categories in Hin. apply elem_of_order_by in Hin.
    subst wd. unfold delete_category in Hin. rewrite Hp in Hin. cbn in Hin.
    rewrite lookup_total_insert_eq in Hin. cbn in Hin.
    apply list_elem_of_filter in Hin. tauto.
Qed.

(** C8 as amended: for a department with tables, the cached list is
    returned, and nothing changes, exactly when the cache is to be used,
    holds an entry for the department, and that entry is less than 60
    seconds old; in every other case the store is queried and the fresh
    result returned, and it is put into the cache with the current instant
    only when the cache is to be used. *)
Theorem get_all_categories_cases (now now' : Z) (department prefix : string)
    (use_cache : bool) (w : World) :
  get_table_prefix department = Some prefix ->
  (forall cached t,
      use_cache = true ->
      categories_cache w !! department = Some cached ->
      categories_cache_time w !! department = Some t ->
      (now - t < 60000000)%Z ->
      get_all_categories now now' department use_cache w = (cached, w))
  /\ ((~ exists cached t,
          use_cache = true
          /\ categories_cache w !! department = Some cached
          /\ categories_cache_time w !! department = Some t
          /\ (now - t < 60000000)%Z) ->
      get_all_categories now now' department use_cache w
      = (select_categories prefix w,
         if use_cache
         then set_cache (<[department := select_categories prefix w]> (categories_cache w))
                        (<[department := now']> (categories_cache_time w)) w
         else w)).
Proof.
  intros Hp. unfold get_all_categories. rewrite Hp. split.
  - intros cached t -> -> -> Hlt.
    apply Z.ltb_lt in Hlt. now rewrite Hlt.
  - intros Hno. destruct use_cache; [|reflexivity].
    destruct (categories_cache w !! department) as [cached|] eqn:Ec; [|reflexivity].
    destruct (categories_cache_time w !! department) as [t|] eqn:Et; [|reflexivity].
    destruct (now - t <? 60000000)%Z eqn:Hlt; [|reflexivity].
    exfalso. apply Hno. exists cached, t. apply Z.ltb_lt in Hlt. auto.
Qed.

End CategoryRegistry.

Lemma category_mutation_invalidates_cache_witness :
  get_table_prefix "support" = Some "support"%string
  /\ categories_cache (add_category false (u "cl2") (u "Claim") "support" cached_world).2
       !! "support"%string = None
  /\ {| c_code := u "CL2"; c_name := u "Claim" |}
       ∈ (get_all_categories 1 1 "support" true
            (add_category false (u "cl2") (u "Claim") "support" cached_world).2).1.
Proof.
  pose proof (category_mutation_invalidates_cache (u "cl2") (u "Claim") "support" "support"
                cached_world 1 1 true eq_refl) as [(Hc & _ & _ & Hin) _].
  split; [reflexivity|]. split; [exact Hc | exact Hin].
Defined.

Lemma get_all_categories_cases_witness :
  get_table_prefix "support" = Some "support"%string
  /\ get_all_categories 59999999 59999999 "support" true cached_world = ([], cached_world)
  /\ (get_all_categories 60000000 60000001 "support" true cached_world).1 = demo_categories
  /\ categories_cache_time
       (get_all_categories 60000000 60000001 "support" true cached_world).2
       !! "support"%string = Some 60000001%Z.
Proof.
  pose proof (get_all_categories_cases 59999999 59999999 "support" "support" true
                cached_world eq_refl) as [Hhit _].
  pose proof (get_all_categories_cases 60000000 60000001 "support" "support" true
                cached_world eq_refl) as [_ Hmiss].
  split; [reflexivity|]. split.
  - apply (Hhit [] 0%Z); reflexivity.
  - rewrite Hmiss.
    + split; reflexivity.
    + intros (cached & t & _ & _ & Ht & Hlt).
      vm_compute in Ht. injection Ht as <-. vm_compute in Hlt. discriminate.
Defined.

(** A listing that bypasses the cache does not store what it fetched: the
    contract of C8 as worded fails there. *)
Lemma listCategories_contract_counterexample :
  ~ listCategories_contract 0 0 "support" "support" false demo_world.
Proof.
  unfold listCategories_contract. vm_compute. intros (_ & Hstored & _). discriminate.
Qed.

(** ** Duplicate confirmation *)

Section Confirmation.
Context `{UnicodeData}.

(** C4: while the flag of a pending confirmation is set, a message in a
    department chat is read as the answer only and is not parsed: an
    affirmative answer runs the CRM workflow on the stored pending record,
    from the world as it was; any other answer sends the cancellation
    notice and nothing else; either way the conversation state is emptied,
    flag and pending record included. *)
Theorem awaiting_confirmation_reply (env : Env) (update : Update)
    (user_data : gmap string value) (w : World) (department : string) :
  get_department_by_chat_id (chat_id update) = Some department ->
  truthy (user_data !! "awaiting_duplicate_confirmation"%string) = true ->
  let response := lower (strip (text update)) in
  let result := handle_message env update user_data w in
  result.1 = ∅
  /\ result.1 !! "awaiting_duplicate_confirmation"%string = None
  /\ result.1 !! "pending_record"%string = None
  /\ (response ∈ affirmative_replies ->
      forall pending, user_data !! "pending_record"%string = Some (VPending pending) ->
        result.2 = save_record env update (p_code pending) (p_phone pending)
                     (p_comment pending) (p_category_name pending)
                     (p_employee_name pending) (p_responsible_id pending)
                     (p_department pending) w)
  /\ (response ∉ affirmative_replies ->
      result.2 = reply_text_to (u "❌ Операція скасована") (Some ReplyKeyboardRemove) w).
Proof.
  intros Hd Hflag response result. subst result.
  unfold handle_message. rewrite Hd, Hflag.
  unfold handle_duplicate_confirmation. fold response. cbn [fst snd].
  split; [reflexivity|]. split; [apply lookup_empty|]. split; [apply lookup_empty|].
  split.
  - intros Hyes pending Hp.
    rewrite bool_decide_eq_true_2 by exact Hyes.
    rewrite lookup_insert_ne by discriminate. now rewrite Hp.
  - intros Hno. now rewrite bool_decide_eq_false_2 by exact Hno.
Qed.

End Confirmation.

(** ** Employee onboarding *)

Section Onboarding.
Context `{UnicodeData}.

(** C9: in the two states that collect a number, a text that [int] does
    not accept leaves the conversation in the same state with the same
    fields, changes neither the store nor the CRM and sends one prompt
    again; [/cancel] ends the conversation from whichever state it is in,
    empties its fields and changes nothing in the store either. *)
Theorem onboarding_reprompt_and_cancel (env : Env) (state : conv_state)
    (update : Update) (user_data : gmap string value) (w : World) :
  let result := add_employee_handler env state update user_data w in
  (command update = None ->
   py_int (strip (text update)) = None ->
   state = ADD_EMPLOYEE_TG_ID \/ state = ADD_EMPLOYEE_BITRIX_ID ->
   result.1.1 = state /\ result.1.2 = user_data
   /\ db result.2 = db w /\ crm_log result.2 = crm_log w
   /\ exists prompt, outbox result.2 = outbox w ++ [prompt])
  /\ (command update = Some (u "cancel") ->
      state <> END ->
      result.1.1 = END /\ result.1.2 = ∅
      /\ db result.2 = db w /\ crm_log result.2 = crm_log w
      /\ outbox result.2 = outbox w ++ [{| reply_text := u "❌ Операція скасована";
                                          reply_markup := None |}]).
Proof.
  intros result. subst result. unfold add_employee_handler. split.
  - intros -> Hint [-> | ->].
    + unfold add_employee_tg_id. rewrite Hint. cbn. eauto 10.
    + unfold add_employee_bitrix_id. rewrite Hint. cbn. eauto 10.
  - intros -> Hopen.
    destruct state; try congruence;
      rewrite bool_decide_eq_true_2 by reflexivity; cbn; auto.
Qed.

End Onboarding.

Lemma awaiting_confirmation_reply_witness :
  get_department_by_chat_id (chat_id (demo_update (u " Так "))) = Some "support"%string
  /\ truthy (awaiting_data !! "awaiting_duplicate_confirmation"%string) = true
  /\ (handle_message known_crm (demo_update (u " Так ")) awaiting_data recorded_world).1 = ∅
  /\ length (records_of "support"
               (handle_message known_crm (demo_update (u " Так ")) awaiting_data
                               recorded_world).2) = 2%nat
  /\ records_of "support"
       (handle_message known_crm (demo_update (u "ні")) awaiting_data recorded_world).2
     = records_of "support" recorded_world.
Proof.
  pose proof (awaiting_confirmation_reply known_crm (demo_update (u " Так "))
                awaiting_data recorded_world "support" eq_refl eq_refl)
    as (Hclear & _ & _ & Hyes & _).
  pose proof (awaiting_confirmation_reply known_crm (demo_update (u "ні"))
                awaiting_data recorded_world "support" eq_refl eq_refl)
    as (_ & _ & _ & _ & Hno).
  split; [reflexivity|]. split; [reflexivity|]. split; [exact Hclear|]. split.
  - rewrite (Hyes ltac:(vm_compute; left) _ eq_refl). vm_compute. reflexivity.
  - rewrite (Hno ltac:(vm_compute; intros Hin; repeat (apply elem_of_cons in Hin
               as [Hin | Hin]; [discriminate|]); inversion Hin)).
    reflexivity.
Defined.

Lemma onboarding_reprompt_and_cancel_witness :
  command (demo_update (u "abc")) = None
  /\ py_int (strip (text (demo_update (u "abc")))) = None
  /\ (add_employee_handler empty_crm ADD_EMPLOYEE_TG_ID (demo_update (u "abc"))
        ∅ demo_world).1.1 = ADD_EMPLOYEE_TG_ID
  /\ (add_employee_handler empty_crm ADD_EMPLOYEE_NAME cancel_update
        awaiting_data demo_world).1 = (END, ∅).
Proof.
  split; [reflexivity|]. split; [reflexivity|]. split.
  - exact (proj1 (proj1 (onboarding_reprompt_and_cancel empty_crm ADD_EMPLOYEE_TG_ID
                           (demo_update (u "abc")) ∅ demo_world)
                    eq_refl eq_refl (or_introl eq_refl))).
  - pose proof (proj2 (onboarding_reprompt_and_cancel empty_crm ADD_EMPLOYEE_NAME
                         cancel_update awaiting_data demo_world) eq_refl
                  ltac:(discriminate)) as (Hs & Hd & _).
    destruct (add_employee_handler empty_crm ADD_EMPLOYEE_NAME cancel_update
                awaiting_data demo_world) as [[st ud] w'].
    cbn in *. congruence.
Defined.

(** ** Per-client history *)

Section ClientHistory.
Context `{UnicodeData}.

Lemma counter_add_keys {K} `{EqDecision K} (k k' : K) (n : nat) (c : list (K * nat)) :
  (k', n) ∈ counter_add k c -> k' = k \/ exists m, (k', m) ∈ c.
Proof.
  induction c as [|[k0 n0] c IH]; simpl.
  - intros Hin. apply list_elem_of_singleton in Hin. left. congruence.
  - destruct (decide (k0 = k)) as [->|Hne]; intros Hin; apply elem_of_cons in Hin.
    + destruct Hin as [E | Hin]; [left; congruence | right; exists n; now right].
    + destruct Hin as [E | Hin].
      * injection E as -> ->. right. exists n0. left.
      * destruct (IH Hin) as [-> | [m Hm]]; [now left | right; exists m; now right].
Qed.

Lemma Counter_keys {K} `{EqDecision K} (keys : list K) (k : K) (n : nat) :
  (k, n) ∈ Counter keys -> k ∈ keys.
Proof.
  unfold Counter.
  assert (G : forall acc, (k, n) ∈ foldl (fun c x => counter_add x c) acc keys ->
                          k ∈ keys \/ exists m, (k, m) ∈ acc).
  { induction keys as [|x keys IH]; simpl; intros acc Hin.
    - right. now exists n.
    - destruct (IH _ Hin) as [Hk | [m Hm]]; [left; now right|].
      destruct (counter_add_keys _ _ _ _ Hm) as [-> | Hacc]; [left; left | now right]. }
  intros Hin. destruct (G [] Hin) as [Hk | [m Hm]]; [exact Hk | inversion Hm].
Qed.

(** The part of the grouping rule that the aggregation follows: every
    fetched record is counted in the total, and a name appears in the
    breakdown by employee only if it is the resolved employee name of a
    fetched record. *)
Lemma info_aggregation_total_and_employees (records : list history_row) :
  total (info_aggregation records) = length records
  /\ forall name n, (name, n) ∈ by_emp (info_aggregation records) ->
       exists r, r ∈ records /\ h_employee_name r = Some name.
Proof.
  split; [reflexivity|]. intros name n Hin. cbn in Hin.
  apply Counter_keys, list_elem_of_omap in Hin as (r & Hr & E).
  exists r. split; [exact Hr|].
  destruct (nonempty (h_employee_name r)); [exact E | discriminate].
Qed.

End ClientHistory.

(** C6, what the code does where the claim fails: the only record of the
    client refers to an employee and to a category that have both been
    deleted.  It is counted in the total and left out of the breakdown by
    employee, but the breakdown by category still lists it, under its
    stored code and without a name. *)
Theorem info_orphan_category_still_grouped :
  let summary := handle_info_summary 500000000 (u "063 123-45-67") 7 "support"
                                     orphan_world in
  total summary = 1%nat
  /\ by_emp summary = []
  /\ by_cat summary = [(u "CL1", None, 1%nat)].
Proof. vm_compute. auto. Qed.

(** ** Grammar parser *)

Section GrammarParser.
Context `{UnicodeData}.

Lemma run_star_matches (p : N -> bool) (s : str) (x : list str * str * str) :
  x ∈ run_star p s <-> matches (Star p) s x.
Proof.
  revert x. induction s as [|c s IH]; intros x; cbn [run_star matches].
  - rewrite list_elem_of_singleton. split.
    + intros ->. exists [], []. auto.
    + intros (m & rest & -> & E & _). symmetry in E.
      apply app_eq_nil in E as [-> ->]. reflexivity.
  - destruct (p c) eqn:Hpc.
    + rewrite elem_of_app, list_elem_of_fmap, list_elem_of_singleton. split.
      * intros [([[g m] rest] & -> & Hin) | ->].
        -- apply IH in Hin as (m' & rest' & E & -> & Hall). injection E as -> -> ->.
           exists (c :: m'), rest'. repeat split. now constructor.
        -- exists [], (c :: s). auto.
      * intros (m & rest & -> & E & Hall). destruct m as [|c' m].
        -- right. simpl in E. now subst rest.
        -- left. simpl in E. injection E as <- ->. inversion Hall; subst.
           exists ([], m, rest). split; [reflexivity|].
           apply IH. exists m, rest. auto.
    + rewrite list_elem_of_singleton. split.
      * intros ->. exists [], (c :: s). auto.
      * intros (m & rest & -> & E & Hall). destruct m as [|c' m].
        -- simpl in E. now subst rest.
        -- simpl in E. injection E as <- ->. inversion Hall; subst. congruence.
Qed.

(** The matcher lists exactly the ways described by [matches]. *)
Lemma run_matches (r : regex) (s : str) (x : list str * str * str) :
  x ∈ run r s <-> matches r s x.
Proof.
  revert s x. induction r as [c|p| | |r1 IH1 r2 IH2|r1 IH1 r2 IH2|r1 IH1|p|r1 IH1];
    intros s x; cbn [run matches].
  - destruct s as [|t s'].
    + rewrite elem_of_nil. split; [tauto | intros (t & s' & E & _); discriminate].
    + destruct (literal_ignorecase c t) eqn:E.
      * rewrite list_elem_of_singleton. split.
        -- intros ->. exists t, s'. auto.
        -- intros (t' & s'' & E' & _ & ->). now injection E' as <- <-.
      * rewrite elem_of_nil. split; [tauto|].
        intros (t' & s'' & E' & Ht & _). injection E' as <- <-. congruence.
  - destruct s as [|t s'].
    + rewrite elem_of_nil. split; [tauto | intros (t & s' & E & _); discriminate].
    + destruct (p t) eqn:E.
      * rewrite list_elem_of_singleton. split.
        -- intros ->. exists t, s'. auto.
        -- intros (t' & s'' & E' & _ & ->). now injection E' as <- <-.
      * rewrite elem_of_nil. split; [tauto|].
        intros (t' & s'' & E' & Ht & _). injection E' as <- <-. congruence.
  - apply list_elem_of_singleton.
  - apply elem_of_nil.
  - rewrite list_elem_of_In, in_flat_map. split.
    + intros ([[g1 m1] s1] & H1 & H2).
      apply list_elem_of_In, IH1 in H1.
      apply list_elem_of_In, list_elem_of_fmap in H2 as ([[g2 m2] s2] & -> & H2).
      apply IH2 in H2. exists g1, m1, s1, g2, m2, s2. auto.
    + intros (g1 & m1 & s1 & g2 & m2 & s2 & H1 & H2 & ->).
      exists (g1, m1, s1). split.
      * now apply list_elem_of_In, IH1.
      * apply list_elem_of_In, list_elem_of_fmap. exists (g2, m2, s2).
        split; [reflexivity | now apply IH2].
  - rewrite elem_of_app, IH1, IH2. reflexivity.
  - rewrite elem_of_app, IH1, list_elem_of_singleton. reflexivity.
  - apply run_star_matches.
  - rewrite list_elem_of_fmap. split.
    + intros ([[g m] s'] & -> & Hin). apply IH1 in Hin. exists g, m, s'. auto.
    + intros (g & m & s' & Hin & ->). exists (g, m, s'). split; [reflexivity|].
      now apply IH1.
Qed.

Lemma matches_plus (p : N -> bool) (s : str) (g : list str) (m rest : str) :
  matches (Plus p) s (g, m, rest) <->
  g = [] /\ s = m ++ rest /\ m <> [] /\ Forall (fun c => p c = true) m.
Proof.
  unfold Plus. cbn [matches]. split.
  - intros (g1 & m1 & s1 & g2 & m2 & s2 & (t & s' & Hs & Hp & E1)
            & (m' & rest' & E2 & Hs1 & Hall) & E).
    injection E1 as ? ? ?. injection E2 as ? ? ?. injection E as ? ? ?. subst.
    repeat split; [discriminate | now constructor].
  - intros (-> & -> & Hne & Hall). destruct m as [|t m]; [congruence|].
    inversion Hall; subst.
    exists [], [t], (m ++ rest), [], m, rest. repeat split.
    + exists t, (m ++ rest). auto.
    + exists m, rest. auto.
Qed.

Lemma matches_literal (code s : str) (g : list str) (m rest : str) :
  matches (literal code) s (g, m, rest) <->
  g = [] /\ s = m ++ rest /\ code_matches code m.
Proof.
  unfold code_matches. revert s g m rest.
  induction code as [|c code IH]; intros s g m rest; cbn [literal foldr matches].
  - split.
    + intros E. injection E as -> -> ->. repeat split. constructor.
    + intros (-> & -> & Hm). inversion Hm. reflexivity.
  - split.
    + intros (g1 & m1 & s1 & g2 & m2 & s2 & (t & s' & Hs & Hc & E1) & H2 & E).
      injection E1 as ? ? ?. injection E as ? ? ?. subst.
      apply IH in H2 as (-> & -> & Hm).
      repeat split. now constructor.
    + intros (-> & -> & Hm). inversion Hm as [|c' t code' m' Hc Hm']; subst.
      exists [], [t], (m' ++ rest), [], m', rest. repeat split.
      * exists t, (m' ++ rest). auto.
      * apply IH. auto.
Qed.

Lemma matches_codes (codes : list str) (s : str) (x : list str * str * str) :
  matches (codes_pattern codes) s x <->
  exists code, code ∈ codes /\ matches (literal code) s x.
Proof.
  induction codes as [|c codes IH]; cbn [codes_pattern foldr matches].
  - split; [tauto | intros (code & Hin & _); inversion Hin].
  - fold (codes_pattern codes). rewrite IH. split.
    + intros [Hc | (code & Hin & Hm)].
      * exists c. split; [left | exact Hc].
      * exists code. split; [now right | exact Hm].
    + intros (code & Hin & Hm). apply elem_of_cons in Hin as [-> | Hin].
      * now left.
      * right. eauto.
Qed.

Lemma matches_phone (s : str) (g : list str) (m rest : str) :
  matches (Seq (Opt (Chr 43)) (Plus is_ascii_digit)) s (g, m, rest) <->
  g = [] /\ s = m ++ rest /\ phone_token m.
Proof.
  unfold phone_token. cbn [matches]. split.
  - intros (g1 & m1 & s1 & g2 & m2 & s2 & Hopt & Hd & E).
    injection E as ? ? ?. subst. fold (Plus is_ascii_digit) in Hd.
    apply matches_plus in Hd as (-> & -> & Hne & Hall).
    destruct Hopt as [(t & s' & Hs & Ht & E1) | E1].
    + injection E1 as ? ? ?. subst.
      change (literal_ignorecase 43 t) with (t =? 43) in Ht.
      apply N.eqb_eq in Ht. subst t.
      repeat split. exists m2. auto.
    + injection E1 as ? ? ?. subst. repeat split. exists m2. auto.
  - intros (-> & -> & d & Hne & Hall & [-> | ->]).
    + exists [], [], (d ++ rest), [], d, rest. repeat split.
      * now right.
      * fold (Plus is_ascii_digit). apply matches_plus. auto.
    + exists [], [43], (d ++ rest), [], d, rest. repeat split.
      * left. exists 43, (d ++ rest). auto.
      * fold (Plus is_ascii_digit). apply matches_plus. auto.
Qed.

Lemma matches_star (p : N -> bool) (s : str) (g : list str) (m rest : str) :
  matches (Star p) s (g, m, rest) <->
  g = [] /\ s = m ++ rest /\ Forall (fun c => p c = true) m.
Proof.
  cbn [matches]. split.
  - intros (m' & rest' & E & Hs & Hall). injection E as ? ? ?. subst. auto.
  - intros (-> & -> & Hall). eauto.
Qed.

Lemma matches_seq (r1 r2 : regex) (s : str) (g : list str) (m rest : str) :
  matches (Seq r1 r2) s (g, m, rest) <->
  exists g1 m1 s1 g2 m2,
    matches r1 s (g1, m1, s1) /\ matches r2 s1 (g2, m2, rest)
    /\ g = g1 ++ g2 /\ m = m1 ++ m2.
Proof.
  cbn [matches]. split.
  - intros (g1 & m1 & s1 & g2 & m2 & s2 & H1 & H2 & E). injection E as ? ? ?. subst.
    exists g1, m1, s1, g2, m2. auto.
  - intros (g1 & m1 & s1 & g2 & m2 & H1 & H2 & -> & ->).
    exists g1, m1, s1, g2, m2, rest. auto.
Qed.

Lemma matches_group (r : regex) (s : str) (g : list str) (m rest : str) :
  matches (Group r) s (g, m, rest) <->
  exists g', matches r s (g', m, rest) /\ g = m :: g'.
Proof.
  cbn [matches]. split.
  - intros (g' & m' & s' & Hm & E). injection E as ? ? ?. subst. eauto.
  - intros (g' & Hm & ->). eauto.
Qed.

Lemma matches_bar (s : str) (g : list str) (m rest : str) :
  matches (Chr 124) s (g, m, rest) <-> g = [] /\ m = [124] /\ s = 124 :: rest.
Proof.
  cbn [matches]. split.
  - intros (t & s' & -> & Ht & E). injection E as ? ? ?. subst.
    change (literal_ignorecase 124 t) with (t =? 124) in Ht.
    apply N.eqb_eq in Ht. now subst t.
  - intros (-> & -> & ->). exists 124, rest. auto.
Qed.

(** Every way in which the pattern of [parse_message] matches closes three
    groups, and the text then has the message form. *)
Lemma matches_message_pattern (codes : list str) (s : str) (g : list str) (m rest : str) :
  matches (message_pattern codes) s (g, m, rest) ->
  (exists code phone comment, g = [code; phone; comment]) /\ message_form codes s.
Proof.
  unfold message_pattern. intros Hm.
  apply matches_seq in Hm as (g1 & pre & s1 & g1' & m1' & Hh & Hm & -> & ->).
  apply matches_group in Hh as (gc & Hcode & ->).
  apply matches_codes in Hcode as (code & Hin & Hcode).
  apply matches_literal in Hcode as (-> & -> & Hcode).
  apply matches_seq in Hm as (g2 & ws1 & s2 & g2' & m2' & Hh & Hm & -> & ->).
  apply matches_plus in Hh as (-> & -> & Hws1 & Hsp1).
  apply matches_seq in Hm as (g3 & ph & s3 & g3' & m3' & Hh & Hm & -> & ->).
  apply matches_group in Hh as (gp & Hphone & ->).
  apply matches_phone in Hphone as (-> & -> & Hphone).
  apply matches_seq in Hm as (g4 & ws2 & s4 & g4' & m4' & Hh & Hm & -> & ->).
  apply matches_star in Hh as (-> & -> & Hsp2).
  apply matches_seq in Hm as (g5 & bar & s5 & g5' & m5' & Hh & Hm & -> & ->).
  apply matches_bar in Hh as (-> & -> & ->).
  apply matches_seq in Hm as (g6 & ws3 & s6 & g6' & m6' & Hh & Hm & -> & ->).
  apply matches_star in Hh as (-> & E & Hsp3).
  apply matches_group in Hm as (gm & Hcomment & ->).
  apply matches_plus in Hcomment as (-> & -> & Hne & _).
  subst. split.
  - eauto.
  - exists code, pre, ws1, ph, ws2, (ws3 ++ m6' ++ rest).
    repeat split; try assumption.
    destruct ws3; [destruct m6'; [congruence | discriminate] | discriminate].
Qed.

Lemma message_form_matches (codes : list str) (s : str) :
  message_form codes s -> exists x, matches (message_pattern codes) s x.
Proof.
  intros (code & pre & ws1 & ph & ws2 & rest & Hin & Hcode & Hne1 & Hsp1 & Hph & Hsp2
          & Hrest & ->).
  exists ([pre; ph; rest], pre ++ ws1 ++ ph ++ ws2 ++ [124] ++ [] ++ rest, []).
  unfold message_pattern.
  apply matches_seq. exists [pre], pre, (ws1 ++ ph ++ ws2 ++ [124] ++ rest), [ph; rest],
                            (ws1 ++ ph ++ ws2 ++ [124] ++ [] ++ rest).
  split; [|split; [|auto]].
  { apply matches_group. exists []. split; [|reflexivity].
    apply matches_codes. exists code. split; [exact Hin|].
    apply matches_literal. auto. }
  apply matches_seq. exists [], ws1, (ph ++ ws2 ++ [124] ++ rest), [ph; rest],
                            (ph ++ ws2 ++ [124] ++ [] ++ rest).
  split; [|split; [|auto]].
  { apply matches_plus. auto. }
  apply matches_seq. exists [ph], ph, (ws2 ++ [124] ++ rest), [rest],
                            (ws2 ++ [124] ++ [] ++ rest).
  split; [|split; [|auto]].
  { apply matches_group. exists []. split; [|reflexivity].
    apply matches_phone. auto. }
  apply matches_seq. exists [], ws2, ([124] ++ rest), [rest], ([124] ++ [] ++ rest).
  split; [|split; [|auto]].
  { apply matches_star. auto. }
  apply matches_seq. exists [], [124], rest, [rest], ([] ++ rest).
  split; [|split; [|auto]].
  { apply matches_bar. auto. }
  apply matches_seq. exists [], [], rest, [rest], rest.
  split; [|split; [|auto]].
  { apply matches_star. repeat split. constructor. }
  apply matches_group. exists []. split; [|reflexivity].
  apply matches_plus. repeat split.
  - now rewrite app_nil_r.
  - exact Hrest.
  - apply Forall_forall. auto.
Qed.

Lemma elem_of_lstrip (x : N) (s : str) : x ∈ lstrip s -> x ∈ s.
Proof.
  induction s as [|c s IH]; simpl; [auto|].
  destruct (isspace c); [intros Hin; right; auto | auto].
Qed.

Lemma elem_of_strip (x : N) (s : str) : x ∈ strip s -> x ∈ s.
Proof.
  unfold strip, rstrip. intros Hin.
  apply elem_of_lstrip.
  apply list_elem_of_In, in_rev, list_elem_of_In, elem_of_lstrip in Hin.
  now apply list_elem_of_In, in_rev, list_elem_of_In in Hin.
Qed.

(** What [re.match] with the message pattern answers. *)
Lemma re_match_message_pattern (codes : list str) (t : str) :
  (message_form codes t ->
   exists code phone comment m rest,
     re_match (message_pattern codes) t = Some ([code; phone; comment], m, rest))
  /\ (~ message_form codes t -> re_match (message_pattern codes) t = None).
Proof.
  unfold re_match. split.
  - intros Hform. apply message_form_matches in Hform as [x Hx].
    apply run_matches in Hx.
    destruct (run (message_pattern codes) t) as [|[[g m] rest] l] eqn:E; [inversion Hx|].
    assert (Hfirst : (g, m, rest) ∈ run (message_pattern codes) t) by (rewrite E; left).
    apply run_matches, matches_message_pattern in Hfirst
      as [(code & phone & comment & ->) _].
    simpl. eauto 10.
  - intros Hno.
    destruct (run (message_pattern codes) t) as [|[[g m] rest] l] eqn:E; [reflexivity|].
    exfalso. apply Hno.
    assert (Hfirst : (g, m, rest) ∈ run (message_pattern codes) t) by (rewrite E; left).
    now apply run_matches, matches_message_pattern in Hfirst as [_ Hform].
Qed.

(** C2: when the registry of the department is not empty (a valid category
    list: its codes have the form that the registry admits), a text is
    parsed exactly if, trimmed, it consists of a registered code up to
    case, one or more white-space characters, an optional plus sign with
    one or more digits, the separator, that is the bar with the white space
    that may stand on either side of it, and a remainder that is not empty
    (it may span lines).  A text without a bar, and a text that does not
    start with a registered code, yield no result at all. *)
Theorem parse_message_accepts_exactly (now now' : Z) (text : str)
    (department : string) (w : World) :
  let categories := (get_all_categories now now' department true w).1 in
  let codes := c_code <$> categories in
  let result := (parse_message now now' text department w).1 in
  categories <> [] ->
  Forall (fun code => valid_code code = true) codes ->
  (is_Some result <-> message_form codes (strip text))
  /\ (124 ∉ text -> result = None)
  /\ ((forall code pre rest, code ∈ codes -> code_matches code pre ->
                             strip text <> pre ++ rest) ->
      result = None).
Proof.
  intros categories codes result Hne _.
  assert (Hiff : is_Some result <-> message_form codes (strip text)).
  { subst result codes categories. unfold parse_message.
    destruct (get_all_categories now now' department true w) as [cats w'].
    cbn [fst] in *. destruct cats as [|c cats]; [congruence|].
    destruct (re_match_message_pattern (c_code <$> c :: cats) (strip text))
      as [Hyes Hno].
    split.
    - intros Hsome.
      destruct (re_match (message_pattern (c_code <$> c :: cats)) (strip text))
        as [[[g m] rest]|] eqn:E.
      + destruct (run (message_pattern (c_code <$> c :: cats)) (strip text))
          as [|x l] eqn:Er; [unfold re_match in E; rewrite Er in E; discriminate|].
        unfold re_match in E. rewrite Er in E. injection E as ->.
        assert (Hx : (g, m, rest) ∈ run (message_pattern (c_code <$> c :: cats))
                                        (strip text)) by (rewrite Er; left).
        now apply run_matches, matches_message_pattern in Hx as [_ Hform].
      + cbn in Hsome. destruct Hsome as [? Hsome]. discriminate.
    - intros Hform. destruct (Hyes Hform) as (code & phone & comment & m & rest & ->).
      cbn. eauto. }
  split; [exact Hiff|]. split.
  - intros Hbar. destruct result as [r|] eqn:E; [|reflexivity].
    exfalso. apply Hbar, elem_of_strip.
    destruct (proj1 Hiff (mk_is_Some _ _ eq_refl))
      as (code & pre & ws1 & ph & ws2 & rest & _ & _ & _ & _ & _ & _ & _ & ->).
    rewrite !elem_of_app. do 4 right. left. left.
  - intros Hcode. destruct result as [r|] eqn:E; [|reflexivity].
    exfalso.
    destruct (proj1 Hiff (mk_is_Some _ _ eq_refl))
      as (code & pre & ws1 & ph & ws2 & rest & Hin & Hm & _ & _ & _ & _ & _ & Et).
    exact (Hcode code pre _ Hin Hm Et).
Qed.

End GrammarParser.

Lemma parse_message_accepts_exactly_witness :
  (get_all_categories 0 0 "support" true demo_world).1 <> []
  /\ Forall (fun code => valid_code code = true)
            (c_code <$> (get_all_categories 0 0 "support" true demo_world).1)
  /\ message_form [u "CL1"] (strip (u " cl1 0631234567 | client called")).
Proof.
  assert (Hne : (get_all_categories 0 0 "support" true demo_world).1 <> [])
    by (vm_compute; discriminate).
  assert (Hvalid : Forall (fun code => valid_code code = true)
                     (c_code <$> (get_all_categories 0 0 "support" true demo_world).1))
    by (vm_compute; repeat constructor).
  split; [exact Hne|]. split; [exact Hvalid|].
  apply (proj1 (proj1 (parse_message_accepts_exactly 0 0
                         (u " cl1 0631234567 | client called") "support" demo_world
                         Hne Hvalid))).
  vm_compute. eexists. reflexivity.
Defined.

(** ** Scenarios of the specification *)

(** A message in lower case is parsed against the registry [{CL1}]. *)
Example scenario_parse :
  (parse_message 0 0 (u "cl1 0631234567 | client called") "support" demo_world).1
  = Some (u "CL1", u "+380631234567", u "client called").
Proof. vm_compute. reflexivity. Qed.

(** The same submission one minute after the first is not stored; the
    conversation waits for a confirmation instead. *)
Example scenario_duplicate_prompt :
  let result := handle_message known_crm (demo_update (u "CL1 +380631234567 | x"))
                               ∅ recorded_world in
  truthy (result.1 !! "awaiting_duplicate_confirmation"%string) = true
  /\ records_of "support" result.2 = records_of "support" recorded_world
  /\ crm_log result.2 = [].
Proof. vm_compute. auto. Qed.

(** Five minutes and one second after the first it is stored at once. *)
Example scenario_after_window :
  let env := {| env_now := 701000000; env_store_fault := false;
                env_contact_list := env_contact_list known_crm;
                env_task_add := Some 8%Z |} in
  let result := handle_message env (demo_update (u "CL1 +380631234567 | x"))
                               ∅ recorded_world in
  result.1 = ∅ /\ length (records_of "support" result.2) = 2%nat.
Proof. vm_compute. auto. Qed.

(** * Further properties of the code *)

(** ** Store: employees and categories *)

Section StoreRoundTrips.
Context `{UnicodeData}.

Lemma get_table_prefix_Some (department prefix : string) :
  get_table_prefix department = Some prefix -> prefix = department.
Proof.
  unfold get_table_prefix.
  destruct (String.eqb department "support") eqn:E1.
  - apply String.eqb_eq in E1. congruence.
  - destruct (String.eqb department "pre_trial") eqn:E2; [|discriminate].
    apply String.eqb_eq in E2. congruence.
Qed.

Lemma department_has_tables (chat : Z) (department : string) :
  get_department_by_chat_id chat = Some department ->
  get_table_prefix department = Some department.
Proof.
  unfold get_department_by_chat_id.
  destruct (chat =? SUPPORT_CHAT_ID)%Z; [intros [= <-]; reflexivity|].
  destruct (chat =? PRE_TRIAL_CHAT_ID)%Z; [intros [= <-]; reflexivity | discriminate].
Qed.

Lemma filter_length_lt {A} (P : A -> Prop) `{forall x, Decision (P x)} (l : list A) :
  (length (filter P l) < length l)%nat <-> exists x, x ∈ l /\ ~ P x.
Proof.
  induction l as [|a l IH].
  - simpl. split; [lia | intros (x & Hx & _); inversion Hx].
  - pose proof (length_filter P l) as Hle.
    destruct (decide (P a)) as [Ha | Ha].
    + rewrite filter_cons_True by exact Ha. simpl. rewrite <- Nat.succ_lt_mono, IH.
      split.
      * intros (x & Hx & Hn). exists x. split; [now right | exact Hn].
      * intros (x & Hx & Hn). apply elem_of_cons in Hx as [-> | Hx]; [tauto | eauto].
    + rewrite filter_cons_False by exact Ha. simpl. split; [|lia].
      intros _. exists a. split; [left | exact Ha].
Qed.

Lemma find_upsert_employee (e : employee) (l : list employee) (k : Z) :
  find (fun x => (e_telegram_id x =? k)%Z) (upsert_employee e l)
  = if decide (k = e_telegram_id e) then Some e
    else find (fun x => (e_telegram_id x =? k)%Z) l.
Proof.
  induction l as [|x l IH]; simpl.
  - destruct (decide (k = e_telegram_id e)) as [-> | Hne].
    + now rewrite Z.eqb_refl.
    + destruct (Z.eqb_spec (e_telegram_id e) k); [congruence | reflexivity].
  - destruct (Z.eqb_spec (e_telegram_id x) (e_telegram_id e)) as [Exe | Exe]; simpl.
    + destruct (decide (k = e_telegram_id e)) as [-> | Hne].
      * now rewrite Z.eqb_refl.
      * destruct (Z.eqb_spec (e_telegram_id e) k); [congruence|].
        destruct (Z.eqb_spec (e_telegram_id x) k); [congruence | reflexivity].
    + destruct (Z.eqb_spec (e_telegram_id x) k) as [Exk | Exk].
      * destruct (decide (k = e_telegram_id e)); [congruence | reflexivity].
      * exact IH.
Qed.

Lemma find_filter_employee (l : list employee) (k k' : Z) :
  find (fun x => (e_telegram_id x =? k')%Z) (filter (fun e => e_telegram_id e <> k) l)
  = if decide (k' = k) then None else find (fun x => (e_telegram_id x =? k')%Z) l.
Proof.
  induction l as [|x l IH]; simpl.
  - now destruct (decide (k' = k)).
  - destruct (decide (e_telegram_id x <> k)) as [Hx | Hx].
    + rewrite filter_cons_True by exact Hx. simpl.
      destruct (Z.eqb_spec (e_telegram_id x) k') as [E | E].
      * destruct (decide (k' = k)); [congruence | reflexivity].
      * exact IH.
    + rewrite filter_cons_False by exact Hx. rewrite IH.
      destruct (decide (k' = k)) as [-> | Hne]; [reflexivity|].
      destruct (Z.eqb_spec (e_telegram_id x) k'); [|reflexivity].
      exfalso. apply Hx. congruence.
Qed.

Lemma find_is_Some_elem {A} (f : A -> bool) (l : list A) :
  is_Some (find f l) <-> exists x, x ∈ l /\ f x = true.
Proof.
  induction l as [|a l IH]; simpl.
  - split; [intros [? ?]; discriminate | intros (x & Hx & _); inversion Hx].
  - destruct (f a) eqn:E.
    + split; [intros _; exists a; split; [left | exact E] | eauto].
    + rewrite IH. split.
      * intros (x & Hx & Hf). exists x. split; [now right | exact Hf].
      * intros (x & Hx & Hf). apply elem_of_cons in Hx as [-> | Hx]; [congruence | eauto].
Qed.

(** X1: an employee written by [add_employee] is what
    [get_employee_by_telegram_id] reads back for that id, whether the id
    was new or not; every other id reads as before. *)
Theorem add_employee_then_lookup (telegram_id bitrix_id other : Z) (name : str)
    (department prefix : string) (w : World) :
  get_table_prefix department = Some prefix ->
  let result := add_employee false telegram_id name bitrix_id department w in
  result.1 = true
  /\ get_employee_by_telegram_id telegram_id department result.2
     = Some {| e_telegram_id := telegram_id; e_name := name; e_bitrix_id := bitrix_id |}
  /\ (other <> telegram_id ->
      get_employee_by_telegram_id other department result.2
      = get_employee_by_telegram_id other department w).
Proof.
  intros Hp result. subst result.
  unfold add_employee, get_employee_by_telegram_id. rewrite Hp. cbn.
  rewrite lookup_total_insert_eq. cbn. rewrite !find_upsert_employee. cbn.
  split; [reflexivity|]. split.
  - now destruct (decide (telegram_id = telegram_id)).
  - intros Hne. now destruct (decide (other = telegram_id)).
Qed.

(** X2: after [delete_employee] the id is no longer found, every other id
    reads as before, and the answer tells whether the id was there. *)
Theorem delete_employee_then_lookup (telegram_id other : Z)
    (department prefix : string) (w : World) :
  get_table_prefix department = Some prefix ->
  let result := delete_employee false telegram_id department w in
  get_employee_by_telegram_id telegram_id department result.2 = None
  /\ (other <> telegram_id ->
      get_employee_by_telegram_id other department result.2
      = get_employee_by_telegram_id other department w)
  /\ (result.1 = true <-> is_Some (get_employee_by_telegram_id telegram_id department w)).
Proof.
  intros Hp result. subst result.
  unfold delete_employee, get_employee_by_telegram_id. rewrite Hp. cbn.
  rewrite lookup_total_insert_eq. cbn. rewrite !find_filter_employee.
  split; [now destruct (decide (telegram_id = telegram_id))|]. split.
  - intros Hne. now destruct (decide (other = telegram_id)).
  - rewrite bool_decide_eq_true, filter_length_lt, find_is_Some_elem. split.
    + intros (x & Hx & Hn). exists x. split; [exact Hx|].
      apply Z.eqb_eq. destruct (decide (e_telegram_id x = telegram_id)); tauto.
    + intros (x & Hx & Hn). exists x. split; [exact Hx|].
      apply Z.eqb_eq in Hn. tauto.
Qed.

Lemma find_upsert_category (c : category) (l : list category) (k : str) :
  find (fun x => bool_decide (c_code x = k)) (upsert_category c l)
  = if decide (k = c_code c) then Some c
    else find (fun x => bool_decide (c_code x = k)) l.
Proof.
  induction l as [|x l IH]; simpl.
  - destruct (decide (k = c_code c)) as [-> | Hne].
    + now rewrite bool_decide_eq_true_2.
    + now rewrite bool_decide_eq_false_2 by congruence.
  - destruct (decide (c_code x = c_code c)) as [Exc | Exc].
    + rewrite (bool_decide_eq_true_2 _ Exc). simpl.
      destruct (decide (k = c_code c)) as [-> | Hne].
      * now rewrite bool_decide_eq_true_2.
      * rewrite bool_decide_eq_false_2 by congruence.
        now rewrite bool_decide_eq_false_2 by congruence.
    + rewrite (bool_decide_eq_false_2 _ Exc). simpl.
      destruct (decide (c_code x = k)) as [Exk | Exk].
      * rewrite (bool_decide_eq_true_2 _ Exk).
        destruct (decide (k = c_code c)); [congruence | reflexivity].
      * rewrite (bool_decide_eq_false_2 _ Exk). exact IH.
Qed.

Lemma find_filter_category (l : list category) (k k' : str) :
  find (fun x => bool_decide (c_code x = k')) (filter (fun c => c_code c <> k) l)
  = if decide (k' = k) then None else find (fun x => bool_decide (c_code x = k')) l.
Proof.
  induction l as [|x l IH]; simpl.
  - now destruct (decide (k' = k)).
  - destruct (decide (c_code x <> k)) as [Hx | Hx].
    + rewrite filter_cons_True by exact Hx. simpl.
      destruct (decide (c_code x = k')) as [E | E].
      * rewrite (bool_decide_eq_true_2 _ E).
        destruct (decide (k' = k)); [congruence | reflexivity].
      * rewrite (bool_decide_eq_false_2 _ E). exact IH.
    + rewrite filter_cons_False by exact Hx. rewrite IH.
      destruct (decide (k' = k)) as [-> | Hne]; [reflexivity|].
      rewrite bool_decide_eq_false_2; [reflexivity|].
      intros E. apply Hx. congruence.
Qed.

(** X3: a category written by [add_category] is found by
    [get_category_by_code] under every spelling with the same upper-case
    form, with the name just given; codes with another upper-case form read
    as before. *)
Theorem add_category_then_lookup (code code' name : str)
    (department prefix : string) (w : World) :
  get_table_prefix department = Some prefix ->
  let result := add_category false code name department w in
  result.1 = true
  /\ (upper code' = upper code ->
      get_category_by_code code' department result.2
      = Some {| c_code := upper code; c_name := name |})
  /\ (upper code' <> upper code ->
      get_category_by_code code' department result.2
      = get_category_by_code code' department w).
Proof.
  intros Hp result. subst result.
  unfold add_category, get_category_by_code. rewrite Hp. cbn.
  rewrite lookup_total_insert_eq. cbn. rewrite !find_upsert_category. cbn.
  split; [reflexivity|]. split.
  - intros E. now destruct (decide (upper code' = upper code)).
  - intros Hne. now destruct (decide (upper code' = upper code)).
Qed.

(** X4: after [delete_category] the code is no longer found under any
    spelling with the same upper-case form, other codes read as before,
    and the answer tells whether the code was registered. *)
Theorem delete_category_then_lookup (code code' : str)
    (department prefix : string) (w : World) :
  get_table_prefix department = Some prefix ->
  let result := delete_category false code department w in
  (upper code' = upper code -> get_category_by_code code' department result.2 = None)
  /\ (upper code' <> upper code ->
      get_category_by_code code' department result.2
      = get_category_by_code code' department w)
  /\ (result.1 = true <-> is_Some (get_category_by_code code department w)).
Proof.
  intros Hp result. subst result.
  unfold delete_category, get_category_by_code. rewrite Hp. cbn.
  rewrite lookup_total_insert_eq. cbn. rewrite !find_filter_category.
  split; [intros E; now destruct (decide (upper code' = upper code))|]. split.
  - intros Hne. now destruct (decide (upper code' = upper code)).
  - rewrite bool_decide_eq_true, filter_length_lt, find_is_Some_elem. split.
    + intros (x & Hx & Hn). exists x. split; [exact Hx|].
      apply bool_decide_eq_true. destruct (decide (c_code x = upper code)); tauto.
    + intros (x & Hx & Hn). exists x. split; [exact Hx|].
      apply bool_decide_eq_true in Hn. tauto.
Qed.

Lemma upsert_category_codes (c : category) (l : list category) :
  c_code <$> upsert_category c l
  = if bool_decide (c_code c ∈ c_code <$> l) then c_code <$> l
    else (c_code <$> l) ++ [c_code c].
Proof.
  induction l as [|x l IH]; cbn [upsert_category].
  - rewrite bool_decide_eq_false_2; [reflexivity | apply not_elem_of_nil].
  - destruct (decide (c_code x = c_code c)) as [E | E].
    + rewrite (bool_decide_eq_true_2 _ E). rewrite !fmap_cons.
      rewrite bool_decide_eq_true_2 by (rewrite E; left). now rewrite E.
    + rewrite (bool_decide_eq_false_2 _ E). rewrite !fmap_cons, IH.
      destruct (decide (c_code c ∈ c_code <$> l)) as [Hin | Hin].
      * rewrite (bool_decide_eq_true_2 _ Hin).
        now rewrite bool_decide_eq_true_2 by (now right).
      * rewrite (bool_decide_eq_false_2 _ Hin).
        rewrite bool_decide_eq_false_2; [reflexivity|].
        intros Hc. apply elem_of_cons in Hc as [Hc | Hc]; [congruence | tauto].
Qed.

(** X5: the codes stay a key of the categories table: if no two rows share
    a code before [add_category], none do after it, and the table grows
    by one row exactly when the code was not registered. *)
Theorem add_category_keeps_key (code name : str) (department prefix : string) (w : World) :
  get_table_prefix department = Some prefix ->
  let cats := t_categories (db w !!! prefix) in
  let cats' := t_categories (db (add_category false code name department w).2 !!! prefix) in
  NoDup (c_code <$> cats) ->
  NoDup (c_code <$> cats')
  /\ length cats' = (if bool_decide (upper code ∈ c_code <$> cats)
                     then length cats else S (length cats)).
Proof.
  intros Hp cats cats' Hnd. subst cats cats'.
  unfold add_category. rewrite Hp. cbn. rewrite lookup_total_insert_eq. cbn.
  set (l := t_categories (db w !!! prefix)) in *.
  pose proof (upsert_category_codes {| c_code := upper code; c_name := name |} l) as E.
  cbn in E.
  assert (Hlen : forall l1 l2 : list category,
             c_code <$> l1 = c_code <$> l2 -> length l1 = length l2).
  { intros l1 l2 El. rewrite <- (length_fmap c_code l1), El. apply length_fmap. }
  destruct (decide (upper code ∈ c_code <$> l)) as [Hin | Hin].
  - rewrite (bool_decide_eq_true_2 _ Hin) in *. rewrite E. split; [exact Hnd|].
    now apply Hlen.
  - rewrite (bool_decide_eq_false_2 _ Hin) in *. rewrite E. split.
    + apply NoDup_app. split; [exact Hnd|]. split.
      * intros x Hx Hx'. apply list_elem_of_singleton in Hx'. congruence.
      * apply NoDup_singleton.
    + rewrite <- (length_fmap c_code (upsert_category _ l)), E.
      rewrite length_app, length_fmap. simpl. lia.
Qed.

End StoreRoundTrips.

Lemma add_employee_then_lookup_witness :
  get_table_prefix "support" = Some "support"%string
  /\ get_employee_by_telegram_id 42 "support"
       (add_employee false 42 (u "Ann") 7 "support" demo_world).2
     = Some {| e_telegram_id := 42; e_name := u "Ann"; e_bitrix_id := 7 |}.
Proof.
  split; [reflexivity|].
  exact (proj1 (proj2 (add_employee_then_lookup 42 7 43 (u "Ann") "support" "support"
                         demo_world eq_refl))).
Defined.

Lemma delete_employee_then_lookup_witness :
  get_table_prefix "support" = Some "support"%string
  /\ get_employee_by_telegram_id 42 "support"
       (delete_employee false 42 "support" demo_world).2 = None.
Proof.
  split; [reflexivity|].
  exact (proj1 (delete_employee_then_lookup 42 43 "support" "support" demo_world eq_refl)).
Defined.

Lemma add_category_then_lookup_witness :
  get_table_prefix "support" = Some "support"%string
  /\ upper (u "Cl2") = upper (u "cl2")
  /\ get_category_by_code (u "Cl2") "support"
       (add_category false (u "cl2") (u "Claim") "support" demo_world).2
     = Some {| c_code := u "CL2"; c_name := u "Claim" |}.
Proof.
  split; [reflexivity|]. split; [reflexivity|].
  exact (proj1 (proj2 (add_category_then_lookup (u "cl2") (u "Cl2") (u "Claim") "support"
                         "support" demo_world eq_refl)) eq_refl).
Defined.

Lemma delete_category_then_lookup_witness :
  get_table_prefix "support" = Some "support"%string
  /\ upper (u "cl1") = upper (u "CL1")
  /\ get_category_by_code (u "cl1") "support"
       (delete_category false (u "CL1") "support" demo_world).2 = None.
Proof.
  split; [reflexivity|]. split; [reflexivity|].
  exact (proj1 (delete_category_then_lookup (u "CL1") (u "cl1") "support" "support"
                  demo_world eq_refl) eq_refl).
Defined.

Lemma add_category_keeps_key_witness :
  get_table_prefix "support" = Some "support"%string
  /\ NoDup (c_code <$> t_categories (db demo_world !!! "support"%string))
  /\ NoDup (c_code <$> t_categories
              (db (add_category false (u "cl2") (u "Claim") "support" demo_world).2
                 !!! "support"%string)).
Proof.
  assert (Hnd : NoDup (c_code <$> t_categories (db demo_world !!! "support"%string))).
  { vm_compute. apply NoDup_singleton. }
  split; [reflexivity|]. split; [exact Hnd|].
  exact (proj1 (add_category_keeps_key (u "cl2") (u "Claim") "support" "support"
                  demo_world eq_refl Hnd)).
Defined.

(** ** Store: departments, records and the cache *)

Section StoreInvariants.
Context `{UnicodeData}.

(** X6: a write names one department and stays in it: whether it succeeds
    or fails, the tables of every other department are as before, and so
    are the cache entries of every other department. *)
Theorem writes_stay_in_department (fault : bool) (id bitrix_id now : Z)
    (name code phone comment : str) (department other : string) (w : World) :
  other <> department ->
  db (add_employee fault id name bitrix_id department w).2 !!! other = db w !!! other
  /\ db (delete_employee fault id department w).2 !!! other = db w !!! other
  /\ db (add_category fault code name department w).2 !!! other = db w !!! other
  /\ db (delete_category fault code department w).2 !!! other = db w !!! other
  /\ db (add_record fault now id code phone comment department w).2 !!! other
     = db w !!! other
  /\ categories_cache (add_category fault code name department w).2 !! other
     = categories_cache w !! other
  /\ categories_cache (delete_category fault code department w).2 !! other
     = categories_cache w !! other.
Proof.
  intros Hne.
  unfold add_employee, delete_employee, add_category, delete_category, add_record.
  destruct (get_table_prefix department) as [prefix|] eqn:Hp; [|repeat split].
  apply get_table_prefix_Some in Hp. subst prefix.
  destruct fault; cbn; [repeat split|].
  rewrite !lookup_total_insert_ne by congruence.
  rewrite !lookup_delete_ne by congruence. repeat split.
Qed.

(** X7: a record written by [add_record] gets the next serial number, is
    appended to the records of its department with the code in upper case,
    and from then on [check_duplicate_record] answers true for the same
    employee, code and phone at every instant at which the record is
    younger than the window. *)
Theorem add_record_then_duplicate (now now' employee minutes : Z)
    (code phone comment : str) (department prefix : string) (w : World) :
  get_table_prefix department = Some prefix ->
  (now' - minutes_us minutes < now)%Z ->
  let result := add_record false now employee code phone comment department w in
  result.1 = Some (Z.of_nat (length (records_of department w)) + 1)%Z
  /\ records_of department result.2
     = records_of department w
       ++ [{| r_id := Z.of_nat (length (records_of department w)) + 1;
              r_employee_telegram_id := employee; r_category_code := upper code;
              r_phone := phone; r_comment := comment; r_timestamp := now |}]
  /\ check_duplicate_record now' employee code phone department minutes result.2 = true.
Proof.
  intros Hp Hwin result. subst result.
  assert (Erec : records_of department
                   (add_record false now employee code phone comment department w).2
                 = records_of department w
                   ++ [{| r_id := Z.of_nat (length (records_of department w)) + 1;
                          r_employee_telegram_id := employee;
                          r_category_code := upper code;
                          r_phone := phone; r_comment := comment;
                          r_timestamp := now |}]).
  { unfold add_record, records_of. rewrite Hp. cbn.
    now rewrite lookup_total_insert_eq. }
  split; [|split; [exact Erec|]].
  - unfold add_record, records_of. rewrite Hp. reflexivity.
  - apply check_duplicate_record_true. eexists. split.
    + rewrite Erec. apply elem_of_app. right. left.
    + cbn. auto.
Qed.

Lemma select_categories_same (prefix : string) (w w' : World) :
  t_categories (db w' !!! prefix) = t_categories (db w !!! prefix) ->
  select_categories prefix w' = select_categories prefix w.
Proof. unfold select_categories. now intros ->. Qed.

(** X8: the cache never lags behind the operations of the program: if every
    cache entry lists what the store would answer, this is still so after a
    listing, after adding or deleting a category, and after writing an
    employee or a record, failed or not.  A listing through the cache then
    returns what the store holds. *)
Theorem cache_coherent_preserved (w : World) :
  cache_coherent w ->
  (forall now now' department use_cache,
      cache_coherent (get_all_categories now now' department use_cache w).2)
  /\ (forall fault code name department,
         cache_coherent (add_category fault code name department w).2)
  /\ (forall fault code department,
         cache_coherent (delete_category fault code department w).2)
  /\ (forall fault id name bitrix_id department,
         cache_coherent (add_employee fault id name bitrix_id department w).2)
  /\ (forall fault id department,
         cache_coherent (delete_employee fault id department w).2)
  /\ (forall fault now id code phone comment department,
         cache_coherent (add_record fault now id code phone comment department w).2)
  /\ (forall now now' department prefix,
         get_table_prefix department = Some prefix ->
         (get_all_categories now now' department true w).1 = select_categories prefix w).
Proof.
  intros Hco. repeat split.
  - intros now now' department use_cache. unfold get_all_categories.
    destruct (get_table_prefix department) as [prefix|] eqn:Hp; [|exact Hco].
    destruct use_cache; [|exact Hco].
    destruct (categories_cache w !! department) as [cached|] eqn:Ec;
      [destruct (categories_cache_time w !! department) as [t|] eqn:Et;
       [destruct (now - t <? 60000000)%Z; [exact Hco|]|]|];
      (intros d2 p2 c2 Hp2 Hc2; cbn in Hc2;
       destruct (decide (department = d2)) as [<- | Hne];
       [rewrite lookup_insert_eq in Hc2; injection Hc2 as <-;
        rewrite Hp in Hp2; now injection Hp2 as <-
       |rewrite lookup_insert_ne in Hc2 by exact Hne; exact (Hco d2 p2 c2 Hp2 Hc2)]).
  - intros fault code name department. unfold add_category.
    destruct (get_table_prefix department) as [prefix|] eqn:Hp; [|exact Hco].
    destruct fault; [exact Hco|].
    intros d2 p2 c2 Hp2 Hc2. cbn in Hc2.
    apply get_table_prefix_Some in Hp. apply get_table_prefix_Some in Hp2 as Hp2'.
    subst prefix p2.
    destruct (decide (department = d2)) as [<- | Hne];
      [rewrite lookup_delete_eq in Hc2; discriminate|].
    rewrite lookup_delete_ne in Hc2 by exact Hne.
    rewrite (Hco d2 d2 c2 Hp2 Hc2). symmetry. apply select_categories_same. cbn.
    now rewrite lookup_total_insert_ne.
  - intros fault code department. unfold delete_category.
    destruct (get_table_prefix department) as [prefix|] eqn:Hp; [|exact Hco].
    destruct fault; [exact Hco|].
    intros d2 p2 c2 Hp2 Hc2. cbn in Hc2.
    apply get_table_prefix_Some in Hp. apply get_table_prefix_Some in Hp2 as Hp2'.
    subst prefix p2.
    destruct (decide (department = d2)) as [<- | Hne];
      [rewrite lookup_delete_eq in Hc2; discriminate|].
    rewrite lookup_delete_ne in Hc2 by exact Hne.
    rewrite (Hco d2 d2 c2 Hp2 Hc2). symmetry. apply select_categories_same. cbn.
    now rewrite lookup_total_insert_ne.
  - intros fault id name bitrix_id department. unfold add_employee.
    destruct (get_table_prefix department) as [prefix|] eqn:Hp; [|exact Hco].
    destruct fault; [exact Hco|].
    intros d2 p2 c2 Hp2 Hc2. cbn in Hc2.
    rewrite (Hco d2 p2 c2 Hp2 Hc2). symmetry. apply select_categories_same. cbn.
    destruct (decide (prefix = p2)) as [<- | Hne].
    + now rewrite lookup_total_insert_eq.
    + now rewrite lookup_total_insert_ne.
  - intros fault id department. unfold delete_employee.
    destruct (get_table_prefix department) as [prefix|] eqn:Hp; [|exact Hco].
    destruct fault; [exact Hco|].
    intros d2 p2 c2 Hp2 Hc2. cbn in Hc2.
    rewrite (Hco d2 p2 c2 Hp2 Hc2). symmetry. apply select_categories_same. cbn.
    destruct (decide (prefix = p2)) as [<- | Hne].
    + now rewrite lookup_total_insert_eq.
    + now rewrite lookup_total_insert_ne.
  - intros fault now id code phone comment department. unfold add_record.
    destruct (get_table_prefix department) as [prefix|] eqn:Hp; [|exact Hco].
    destruct fault; [exact Hco|].
    intros d2 p2 c2 Hp2 Hc2. cbn in Hc2.
    rewrite (Hco d2 p2 c2 Hp2 Hc2). symmetry. apply select_categories_same. cbn.
    destruct (decide (prefix = p2)) as [<- | Hne].
    + now rewrite lookup_total_insert_eq.
    + now rewrite lookup_total_insert_ne.
  - intros now now' department prefix Hp. unfold get_all_categories. rewrite Hp.
    destruct (categories_cache w !! department) as [cached|] eqn:Ec; [|reflexivity].
    destruct (categories_cache_time w !! department) as [t|]; [|reflexivity].
    destruct (now - t <? 60000000)%Z; [|reflexivity].
    cbn. exact (Hco department prefix cached Hp Ec).
Qed.

End StoreInvariants.

Lemma writes_stay_in_department_witness :
  "pre_trial"%string <> "support"%string
  /\ db (add_record false 5 42 (u "cl1") (u "+380631234567") (u "x") "support"
                    demo_world).2 !!! "pre_trial"%string
     = db demo_world !!! "pre_trial"%string.
Proof.
  assert (Hne : "pre_trial"%string <> "support"%string) by discriminate.
  split; [exact Hne|].
  exact (proj1 (proj2 (proj2 (proj2 (proj2
           (writes_stay_in_department false 42 7 5 (u "Ann") (u "cl1")
              (u "+380631234567") (u "x") "support" "pre_trial" demo_world Hne)))))).
Defined.

Lemma add_record_then_duplicate_witness :
  get_table_prefix "support" = Some "support"%string
  /\ (299000000 - minutes_us 5 < 0)%Z
  /\ check_duplicate_record 299000000 42 (u "cl1") (u "+380631234567") "support" 5
       (add_record false 0 42 (u "cl1") (u "+380631234567") (u "x") "support"
                   demo_world).2 = true.
Proof.
  assert (Hwin : (299000000 - minutes_us 5 < 0)%Z) by (vm_compute; reflexivity).
  split; [reflexivity|]. split; [exact Hwin|].
  exact (proj2 (proj2 (add_record_then_duplicate 0 299000000 42 5 (u "cl1")
                         (u "+380631234567") (u "x") "support" "support" demo_world
                         eq_refl Hwin))).
Defined.

Lemma cache_coherent_preserved_witness :
  cache_coherent demo_world
  /\ cache_coherent (get_all_categories 0 0 "support" true demo_world).2.
Proof.
  assert (Hco : cache_coherent demo_world).
  { intros department prefix cached _ Hc. cbn in Hc. rewrite lookup_empty in Hc.
    discriminate. }
  split; [exact Hco|].
  exact (proj1 (cache_coherent_preserved demo_world Hco) 0%Z 0%Z "support"%string true).
Defined.

(** ** Ordered queries and statistics *)

Section Queries.
Context `{UnicodeData}.

Lemma length_insert_by {A} (leb : A -> A -> bool) (a : A) (l : list A) :
  length (insert_by leb a l) = S (length l).
Proof.
  induction l as [|y l IH]; simpl; [reflexivity|].
  destruct (leb a y); simpl; [reflexivity | now rewrite IH].
Qed.

Lemma length_order_by {A} (leb : A -> A -> bool) (l : list A) :
  length (order_by leb l) = length l.
Proof.
  unfold order_by. induction l as [|y l IH]; simpl; [reflexivity|].
  now rewrite length_insert_by, IH.
Qed.

Lemma insert_by_sorted {A} (leb : A -> A -> bool) (a : A) (l : list A) :
  (forall x y, leb x y = false -> leb y x = true) ->
  Sorted (fun x y => leb x y = true) l ->
  Sorted (fun x y => leb x y = true) (insert_by leb a l).
Proof.
  intros Htotal. induction l as [|y l IH]; intros Hs; simpl.
  - repeat constructor.
  - destruct (leb a y) eqn:E.
    + constructor; [exact Hs | constructor; exact E].
    + inversion Hs as [|? ? Hs' Hhd]; subst. constructor; [now apply IH|].
      destruct l as [|z l]; simpl.
      * constructor. now apply Htotal.
      * destruct (leb a z); constructor.
        -- now apply Htotal.
        -- now inversion Hhd.
Qed.

Lemma order_by_sorted {A} (leb : A -> A -> bool) (l : list A) :
  (forall x y, leb x y = false -> leb y x = true) ->
  Sorted (fun x y => leb x y = true) (order_by leb l).
Proof.
  intros Htotal. unfold order_by. induction l as [|y l IH]; simpl.
  - constructor.
  - now apply insert_by_sorted.
Qed.

Lemma str_leb_total (a b : str) : str_leb a b = false -> str_leb b a = true.
Proof.
  revert b. induction a as [|x a IH]; intros [|y b]; simpl; try congruence.
  intros E. apply orb_false_iff in E as [Hlt E].
  apply N.ltb_ge in Hlt.
  destruct (N.eqb_spec x y) as [-> | Hne].
  - simpl in E. rewrite N.eqb_refl, (IH _ E). simpl. apply orb_true_r.
  - assert (Hyx : (y <? x) = true) by (apply N.ltb_lt; lia). now rewrite Hyx.
Qed.

Lemma Sorted_weaken {A} (R R' : A -> A -> Prop) (l : list A) :
  (forall a b, R a b -> R' a b) -> Sorted R l -> Sorted R' l.
Proof.
  intros Himp. induction 1 as [|a l Hs IH Hhd]; constructor; [exact IH|].
  destruct Hhd; constructor. now apply Himp.
Qed.

Lemma insert_by_Permutation {A} (leb : A -> A -> bool) (a : A) (l : list A) :
  insert_by leb a l ≡ₚ a :: l.
Proof.
  induction l as [|y l IH]; simpl; [reflexivity|].
  destruct (leb a y); [reflexivity|].
  rewrite IH. apply Permutation_swap.
Qed.

Lemma order_by_Permutation {A} (leb : A -> A -> bool) (l : list A) :
  order_by leb l ≡ₚ l.
Proof.
  unfold order_by. induction l as [|y l IH]; simpl; [reflexivity|].
  now rewrite insert_by_Permutation, IH.
Qed.

(** X9: [get_records_by_phone] returns one row for every record of the
    department with that phone inside the window and no other row: the
    rows are, up to their order, the records selected from the table, each
    joined with the employee and the category it names.  They come newest
    first, and each carries the phone asked for; a name that is no
    department has no rows. *)
Theorem get_records_by_phone_rows (now days : Z) (phone : str) (department : string)
    (w : World) :
  let rows := get_records_by_phone now phone days department w in
  Sorted (fun a b => (h_timestamp b <= h_timestamp a)%Z) rows
  /\ (forall row, row ∈ rows ->
        h_phone row = phone /\ (now - days_us days < h_timestamp row)%Z)
  /\ length rows
     = length (filter (fun r => r_phone r = phone
                                /\ (now - days_us days < r_timestamp r)%Z)
                      (records_of department w))
  /\ (forall prefix, get_table_prefix department = Some prefix ->
        rows ≡ₚ join_record (db w !!! prefix)
                  <$> filter (fun r => r_phone r = phone
                                       /\ (now - days_us days < r_timestamp r)%Z)
                             (t_records (db w !!! prefix)))
  /\ (get_table_prefix department = None -> rows = []).
Proof.
  intros rows. subst rows. unfold get_records_by_phone, records_of.
  destruct (get_table_prefix department) as [prefix|].
  - split; [|split; [|split; [|split]]].
    + eapply Sorted_weaken; [|apply order_by_sorted].
      * intros a b Hab. cbn beta in Hab. now apply Z.leb_le.
      * intros a b Hab. apply Z.leb_gt in Hab. apply Z.leb_le. lia.
    + intros row Hrow. apply elem_of_order_by, list_elem_of_fmap in Hrow
        as (r & -> & Hr). apply list_elem_of_filter in Hr as [Hr _]. exact Hr.
    + now rewrite length_order_by, length_fmap.
    + intros p [= <-]. apply order_by_Permutation.
    + discriminate.
  - split; [constructor|]. split; [intros row Hrow; inversion Hrow|].
    split; [reflexivity|]. split; [discriminate | reflexivity].
Qed.

(** X10: a listing that does not go through the cache returns exactly the
    categories of the department, each row once, in ascending order of
    their codes, and leaves the world as it was. *)
Theorem get_all_categories_uncached (now now' : Z) (department prefix : string)
    (w : World) :
  get_table_prefix department = Some prefix ->
  let result := get_all_categories now now' department false w in
  result.2 = w
  /\ Sorted (fun a b => str_leb (c_code a) (c_code b) = true) result.1
  /\ (forall c, c ∈ result.1 <-> c ∈ t_categories (db w !!! prefix))
  /\ length result.1 = length (t_categories (db w !!! prefix)).
Proof.
  intros Hp result. subst result. unfold get_all_categories. rewrite Hp. cbn.
  unfold select_categories. split; [reflexivity|]. split; [|split].
  - apply (order_by_sorted (fun a b => str_leb (c_code a) (c_code b))).
    intros a b. apply str_leb_total.
  - intros c. apply elem_of_order_by.
  - apply length_order_by.
Qed.

End Queries.

Lemma get_all_categories_uncached_witness :
  get_table_prefix "support" = Some "support"%string
  /\ (get_all_categories 0 0 "support" false cached_world).2 = cached_world.
Proof.
  split; [reflexivity|].
  exact (proj1 (get_all_categories_uncached 0 0 "support" "support" cached_world eq_refl)).
Defined.

(** ** Counting *)

Section Counting.
Context {K : Type} `{EqDecision K}.

Lemma Counter_snoc (keys : list K) (k : K) :
  Counter (keys ++ [k]) = counter_add k (Counter keys).
Proof. unfold Counter. now rewrite foldl_app. Qed.

Lemma counter_add_keys_list (k : K) (c : list (K * nat)) :
  (counter_add k c).*1 = if bool_decide (k ∈ c.*1) then c.*1 else c.*1 ++ [k].
Proof.
  induction c as [|[k0 n0] c IH]; cbn [counter_add].
  - rewrite bool_decide_eq_false_2; [reflexivity | apply not_elem_of_nil].
  - destruct (decide (k0 = k)) as [-> | Hne]; rewrite !fmap_cons; cbn [fst].
    + now rewrite bool_decide_eq_true_2 by left.
    + rewrite IH. destruct (decide (k ∈ c.*1)) as [Hin | Hin].
      * rewrite (bool_decide_eq_true_2 _ Hin).
        now rewrite bool_decide_eq_true_2 by (now right).
      * rewrite (bool_decide_eq_false_2 _ Hin).
        rewrite bool_decide_eq_false_2; [reflexivity|].
        intros Hc. apply elem_of_cons in Hc as [Hc | Hc]; [congruence | tauto].
Qed.

Lemma counter_add_sum (k : K) (c : list (K * nat)) :
  sum_list (counter_add k c).*2 = S (sum_list c.*2).
Proof.
  induction c as [|[k0 n0] c IH]; cbn [counter_add]; [reflexivity|].
  destruct (decide (k0 = k)); rewrite !fmap_cons; cbn [snd sum_list foldr].
  - reflexivity.
  - rewrite IH. simpl. lia.
Qed.

Lemma counter_add_elem (k k' : K) (n : nat) (c : list (K * nat)) :
  NoDup c.*1 ->
  (k', n) ∈ counter_add k c <->
  (k' <> k /\ (k', n) ∈ c)
  \/ (k' = k /\ exists m, n = S m /\ ((k, m) ∈ c \/ (m = 0%nat /\ k ∉ c.*1))).
Proof.
  induction c as [|[k0 n0] c IH]; intros Hnd; cbn [counter_add].
  - rewrite list_elem_of_singleton. split.
    + intros [= -> ->]. right. split; [reflexivity|]. exists 0%nat.
      split; [reflexivity|]. right. split; [reflexivity | apply not_elem_of_nil].
    + intros [[_ Hin] | (-> & m & -> & [Hin | [-> _]])]; try (inversion Hin; fail).
      reflexivity.
  - rewrite fmap_cons in Hnd. cbn [fst] in Hnd. apply NoDup_cons in Hnd as [Hk0 Hnd].
    destruct (decide (k0 = k)) as [-> | Hne]; rewrite elem_of_cons.
    + split.
      * intros [[= -> ->] | Hin].
        -- right. split; [reflexivity|]. exists n0. split; [reflexivity|]. left. now left.
        -- left. split; [|now right]. intros ->. apply Hk0.
           apply list_elem_of_fmap. now exists (k, n).
      * intros [[Hne Hin] | (-> & m & -> & [Hin | [-> Hnot]])].
        -- apply elem_of_cons in Hin as [[= ? ?] | Hin]; [congruence | now right].
        -- apply elem_of_cons in Hin as [[= ->] | Hin]; [now left|].
           exfalso. apply Hk0. apply list_elem_of_fmap. now exists (k, m).
        -- exfalso. apply Hnot. rewrite fmap_cons. left.
    + rewrite (IH Hnd). split.
      * intros [[= -> ->] | [[Hne' Hin] | (-> & m & -> & Hm)]].
        -- left. split; [exact Hne | now left].
        -- left. split; [exact Hne' | now right].
        -- right. split; [reflexivity|]. exists m. split; [reflexivity|].
           destruct Hm as [Hin | [-> Hnot]]; [left; now right|].
           right. split; [reflexivity|]. rewrite fmap_cons. cbn [fst].
           intros Hc. apply elem_of_cons in Hc as [Hc | Hc]; [congruence | tauto].
      * intros [[Hne' Hin] | (-> & m & -> & Hm)].
        -- apply elem_of_cons in Hin as [Hin | Hin]; [now left|]. right. left. auto.
        -- right. right. split; [reflexivity|]. exists m. split; [reflexivity|].
           destruct Hm as [Hin | [-> Hnot]].
           ++ apply elem_of_cons in Hin as [[= ? ?] | Hin]; [congruence | now left].
           ++ right. split; [reflexivity|]. intros Hc. apply Hnot.
              rewrite fmap_cons. now right.
Qed.

(** What a [Counter] holds: one entry for every key that occurs, with the
    number of its occurrences. *)
Lemma Counter_counts (keys : list K) :
  NoDup (Counter keys).*1
  /\ sum_list (Counter keys).*2 = length keys
  /\ forall k n, (k, n) ∈ Counter keys <->
                 (0 < n)%nat /\ n = length (filter (fun x => x = k) keys).
Proof.
  induction keys as [|x keys (Hnd & Hsum & Hcnt)] using rev_ind.
  - split; [constructor|]. split; [reflexivity|].
    intros k n. cbn. split; [intros Hin; inversion Hin | lia].
  - rewrite Counter_snoc. split; [|split].
    + rewrite counter_add_keys_list. case_bool_decide; [exact Hnd|].
      apply NoDup_app. split; [exact Hnd|]. split; [|apply NoDup_singleton].
      intros y Hy Hy'. apply list_elem_of_singleton in Hy'. congruence.
    + rewrite counter_add_sum, Hsum, length_app. simpl. lia.
    + intros k n. rewrite (counter_add_elem _ _ _ _ Hnd), filter_app, length_app.
      assert (Hkeys : x ∈ (Counter keys).*1 <->
                      (0 < length (filter (fun y => y = x) keys))%nat).
      { split.
        - intros Hin. apply list_elem_of_fmap in Hin as ([k' m] & -> & Hin).
          apply Hcnt in Hin. cbn. lia.
        - intros Hpos. apply list_elem_of_fmap.
          exists (x, length (filter (fun y => y = x) keys)). split; [reflexivity|].
          now apply Hcnt. }
      destruct (decide (x = k)) as [-> | Hne].
      * rewrite filter_cons_True by reflexivity. simpl. split.
        -- intros [[Hne _] | (_ & m & -> & [Hin | [-> Hnot]])]; [congruence| |].
           ++ apply Hcnt in Hin. lia.
           ++ rewrite Hkeys in Hnot. lia.
        -- intros [Hpos ->]. right. split; [reflexivity|].
           exists (length (filter (fun y => y = k) keys)). split; [lia|].
           destruct (decide (0 < length (filter (fun y => y = k) keys))%nat) as [Hp | Hp].
           ++ left. now apply Hcnt.
           ++ right. split; [lia|]. rewrite Hkeys. exact Hp.
      * rewrite filter_cons_False by exact Hne. simpl. rewrite Nat.add_0_r, <- Hcnt.
        split; [intros [[_ Hin] | [E _]]; [exact Hin | congruence] | intros Hin].
        left. split; [congruence | exact Hin].
Qed.

End Counting.

(** ** Summaries *)

Section Summaries.
Context `{UnicodeData}.

Lemma filter_omap_length {A B} `{EqDecision B} (f : A -> option B) (k : B) (l : list A) :
  length (filter (fun x => x = k) (omap f l))
  = length (filter (fun a => f a = Some k) l).
Proof.
  induction l as [|a l IH]; [reflexivity|]. cbn [omap list_omap].
  destruct (f a) as [b|] eqn:E.
  - destruct (decide (b = k)) as [-> | Hne].
    + rewrite filter_cons_True by reflexivity.
      rewrite (filter_cons_True (fun a => f a = Some k)) by exact E. simpl. now rewrite IH.
    + rewrite filter_cons_False by exact Hne.
      rewrite (filter_cons_False (fun a => f a = Some k)) by congruence. exact IH.
  - rewrite (filter_cons_False (fun a => f a = Some k)) by congruence. exact IH.
Qed.

Lemma filter_positive {A} (P : A -> Prop) `{forall x, Decision (P x)} (l : list A) :
  (0 < length (filter P l))%nat -> exists x, x ∈ l /\ P x.
Proof.
  intros Hpos. destruct (filter P l) as [|x l'] eqn:E; [simpl in Hpos; lia|].
  exists x. assert (Hx : x ∈ filter P l) by (rewrite E; left).
  apply list_elem_of_filter in Hx. tauto.
Qed.

Lemma omap_filter_length {A B} (f : A -> option B) (l : list A) :
  length (omap f l) = length (filter (fun a => is_Some (f a)) l).
Proof.
  induction l as [|a l IH]; [reflexivity|]. cbn [omap list_omap].
  destruct (f a) as [b|] eqn:E.
  - rewrite filter_cons_True by (rewrite E; eauto). simpl. now rewrite IH.
  - rewrite filter_cons_False by (rewrite E; intros [? ?]; discriminate). exact IH.
Qed.

(** X11: in the summary of [/info], a name is listed in the breakdown by
    employee exactly if it is the (non-empty) employee name of a fetched
    record, with the number of such records; a pair of code and name is
    listed in the breakdown by category exactly if a fetched record with a
    non-empty code carries it, with the number of such records; each key is
    listed once, and the counts by employee add up to no more than the
    total. *)
Theorem info_aggregation_counts (records : list history_row) :
  let s := info_aggregation records in
  (forall name n,
      (name, n) ∈ by_emp s <->
      (0 < n)%nat /\ name <> []
      /\ n = length (filter (fun r => h_employee_name r = Some name) records))
  /\ (forall code cname n,
         (code, cname, n) ∈ by_cat s <->
         (0 < n)%nat /\ code <> []
         /\ n = length (filter (fun r => h_category_code r = code
                                         /\ h_category_name r = cname) records))
  /\ NoDup (by_emp s).*1 /\ NoDup (by_cat s).*1
  /\ (sum_list (by_emp s).*2 <= total s)%nat.
Proof.
  cbn zeta. unfold info_aggregation. cbn [by_emp by_cat total].
  set (fe := fun r : history_row =>
               if nonempty (h_employee_name r) then h_employee_name r else None).
  set (fc := fun r : history_row =>
               if nonempty (Some (h_category_code r))
               then Some (h_category_code r, h_category_name r) else None).
  destruct (Counter_counts (omap fe records)) as (Hnd1 & Hsum1 & Hcnt1).
  destruct (Counter_counts (omap fc records)) as (Hnd2 & Hsum2 & Hcnt2).
  assert (Hfe : forall name r, fe r = Some name <->
                               h_employee_name r = Some name /\ name <> []).
  { intros name r. unfold fe. destruct (h_employee_name r) as [[|c s']|]; cbn.
    - split; [discriminate | intros [[= <-] Hn]; congruence].
    - split; [intros [= <-]; split; [reflexivity | discriminate] | tauto].
    - split; [discriminate | intros [? _]; discriminate]. }
  assert (Hfc : forall code cname r,
             fc r = Some (code, cname) <->
             (h_category_code r = code /\ h_category_name r = cname) /\ code <> []).
  { intros code cname r. unfold fc. destruct (h_category_code r) as [|c s']; cbn.
    - split; [discriminate | intros [[<- _] Hn]; congruence].
    - split; [intros [= <- <-]; repeat split; discriminate | intros [[<- <-] _]; reflexivity]. }
  split; [|split; [|split; [exact Hnd1 | split; [exact Hnd2|]]]].
  - intros name n. rewrite Hcnt1, filter_omap_length. split.
    + intros [Hpos ->]. destruct (filter_positive _ _ Hpos) as (r & _ & Hr).
      apply Hfe in Hr as [_ Hne]. repeat split; try assumption.
      f_equal. apply list_filter_iff. intros r'. pose proof (Hfe name r'). tauto.
    + intros (Hpos & Hne & ->). split; [|f_equal; apply list_filter_iff; intros r';
                                          pose proof (Hfe name r'); tauto].
      erewrite list_filter_iff; [exact Hpos|]. intros r'. pose proof (Hfe name r'). tauto.
  - intros code cname n. rewrite Hcnt2, filter_omap_length. split.
    + intros [Hpos ->]. destruct (filter_positive _ _ Hpos) as (r & _ & Hr).
      apply Hfc in Hr as [_ Hne]. repeat split; try assumption.
      f_equal. apply list_filter_iff. intros r'. pose proof (Hfc code cname r'). tauto.
    + intros (Hpos & Hne & ->). split; [|f_equal; apply list_filter_iff; intros r';
                                          pose proof (Hfc code cname r'); tauto].
      erewrite list_filter_iff; [exact Hpos|]. intros r'. pose proof (Hfc code cname r'). tauto.
  - rewrite Hsum1, omap_filter_length. apply length_filter.
Qed.

Lemma insert_by_sum {K} (leb : K * nat -> K * nat -> bool) (a : K * nat)
    (l : list (K * nat)) :
  sum_list (insert_by leb a l).*2 = (a.2 + sum_list l.*2)%nat.
Proof.
  induction l as [|y l IH]; simpl; [reflexivity|].
  destruct (leb a y); simpl; [reflexivity|]. fold (fmap (M:=list) (@snd K nat)).
  rewrite IH. lia.
Qed.

Lemma order_by_sum {K} (leb : K * nat -> K * nat -> bool) (l : list (K * nat)) :
  sum_list (order_by leb l).*2 = sum_list l.*2.
Proof.
  unfold order_by. induction l as [|y l IH]; simpl; [reflexivity|].
  rewrite insert_by_sum. fold (fmap (M:=list) (@snd K nat)). now rewrite IH.
Qed.

(** X12: in the team statistics the counts by employee add up to the total,
    and so do the counts by category, whether or not the records still have
    their employee or category: the records without one form a group of
    their own.  The total is the number of records of the department
    inside the window, both breakdowns are in descending order of count,
    and a name that is no department gives the empty statistics. *)
Theorem get_team_stats_totals (now days : Z) (department : string) (w : World) :
  let s := get_team_stats now days department w in
  sum_list (ts_by_employee s).*2 = ts_total s
  /\ sum_list (ts_by_category s).*2 = ts_total s
  /\ ts_total s
     = length (filter (fun r => (now - days_us days < r_timestamp r)%Z)
                      (records_of department w))
  /\ Sorted (fun a b => (b.2 <= a.2)%nat) (ts_by_employee s)
  /\ Sorted (fun a b => (b.2 <= a.2)%nat) (ts_by_category s)
  /\ (get_table_prefix department = None ->
      s = {| ts_total := 0; ts_by_employee := []; ts_by_category := [] |}).
Proof.
  cbn zeta. unfold get_team_stats, records_of.
  destruct (get_table_prefix department) as [prefix|];
    cbn [ts_total ts_by_employee ts_by_category].
  - rewrite !order_by_sum.
    rewrite (proj1 (proj2 (Counter_counts _))), (proj1 (proj2 (Counter_counts _))).
    rewrite !length_fmap. repeat split; try discriminate.
    + eapply Sorted_weaken; [|apply order_by_sorted].
      * intros a b Hab. cbn beta in Hab. now apply Nat.leb_le.
      * intros a b Hab. apply Nat.leb_gt in Hab. apply Nat.leb_le. lia.
    + eapply Sorted_weaken; [|apply order_by_sorted].
      * intros a b Hab. cbn beta in Hab. now apply Nat.leb_le.
      * intros a b Hab. apply Nat.leb_gt in Hab. apply Nat.leb_le. lia.
  - repeat split; constructor.
Qed.

End Summaries.

(** ** CRM workflow and message handling *)

Section Handling.
Context `{UnicodeData}.

(** X13: a contact returned by [find_contact_by_phone] is one of those the
    CRM answered for the normalised phone and has a phone value with the
    same digits as the normalised phone; nothing is returned exactly when
    the request failed or no answered contact has such a value; and
    normalising the phone beforehand changes nothing. *)
Theorem find_contact_by_phone_exact (env : Env) (phone : str) :
  (forall c, find_contact_by_phone env phone = Some c ->
     exists result,
       env_contact_list env (normalize_phone phone) = Some result /\ c ∈ result
       /\ exists ph, ph ∈ ct_phones c
                     /\ clean_phone ph = clean_phone (normalize_phone phone))
  /\ (find_contact_by_phone env phone = None <->
      env_contact_list env (normalize_phone phone) = None
      \/ exists result,
           env_contact_list env (normalize_phone phone) = Some result
           /\ forall c ph, c ∈ result -> ph ∈ ct_phones c ->
                           clean_phone ph <> clean_phone (normalize_phone phone))
  /\ find_contact_by_phone env (normalize_phone phone) = find_contact_by_phone env phone.
Proof.
  assert (Hfind :
             find_contact_by_phone env phone
             = match env_contact_list env (normalize_phone phone) with
               | None => None
               | Some result =>
                   find (fun c => existsb (fun ph => bool_decide
                                             (clean_phone ph
                                              = clean_phone (normalize_phone phone)))
                                          (ct_phones c)) result
               end).
  { unfold find_contact_by_phone.
    destruct (env_contact_list env (normalize_phone phone)) as [[|c l]|]; reflexivity. }
  split; [|split].
  - intros c Hc. rewrite Hfind in Hc.
    destruct (env_contact_list env (normalize_phone phone)) as [result|]; [|discriminate].
    exists result. split; [reflexivity|].
    apply find_some in Hc as [Hin Hex]. split; [now apply list_elem_of_In|].
    apply existsb_exists in Hex as (ph & Hph & Heq).
    exists ph. split; [now apply list_elem_of_In | now apply bool_decide_eq_true in Heq].
  - rewrite Hfind.
    destruct (env_contact_list env (normalize_phone phone)) as [result|];
      [|split; [now left | reflexivity]].
    split.
    + intros Hnone. right. exists result. split; [reflexivity|].
      intros c ph Hc Hph Heq.
      pose proof (find_none _ _ Hnone c (proj1 (list_elem_of_In _ _) Hc)) as Hf.
      cbn beta in Hf.
      assert (Ht : existsb (fun ph0 => bool_decide
                              (clean_phone ph0 = clean_phone (normalize_phone phone)))
                           (ct_phones c) = true).
      { apply existsb_exists. exists ph. split; [now apply list_elem_of_In|].
        now apply bool_decide_eq_true. }
      congruence.
    + intros [Hreq | (result' & [= <-] & Hno)]; [discriminate|].
      destruct (find _ result) as [c|] eqn:Hf; [|reflexivity].
      apply find_some in Hf as [Hin Hex].
      apply existsb_exists in Hex as (ph & Hph & Heq).
      apply bool_decide_eq_true in Heq.
      exfalso. eapply Hno; [apply list_elem_of_In, Hin | apply list_elem_of_In, Hph | exact Heq].
  - unfold find_contact_by_phone.
    destruct (normalize_phone_shape phone) as (rest & E & Hrest).
    now rewrite E, (normalize_phone_canonical rest Hrest).
Qed.

(** X14: with a contact found, [save_record] first asks the CRM for the
    task, adding the timeline comment and the completion only if a task
    id came back, and then writes the record whatever the CRM answered:
    if the store accepts it, exactly this record is appended to the
    department and the user is told it is saved; if the store refuses,
    no table changes and the user is told that only the task exists. *)
Theorem save_record_known_client (env : Env) (update : Update)
    (code phone comment category_name employee_name : str) (responsible_id : Z)
    (department prefix : string) (w : World) (c : contact) :
  find_contact_by_phone env phone = Some c ->
  get_table_prefix department = Some prefix ->
  let w' := save_record env update code phone comment category_name employee_name
                        responsible_id department w in
  let task := TaskAdd (u "Запис: " ++ category_name) comment responsible_id
                      (env_now env + days_us 1)%Z (ct_id c) in
  crm_log w'
  = crm_log w
    ++ task :: match env_task_add env with
               | Some task_id =>
                   [TimelineCommentAdd (ct_id c)
                      (u "📌 " ++ category_name ++ u ": " ++ comment) responsible_id;
                    TaskComplete task_id]
               | None => []
               end
  /\ (env_store_fault env = false ->
      records_of department w'
      = records_of department w
        ++ [{| r_id := Z.of_nat (length (records_of department w)) + 1;
               r_employee_telegram_id := from_user_id update;
               r_category_code := upper code; r_phone := phone;
               r_comment := comment; r_timestamp := env_now env |}]
      /\ exists text, outbox w' = outbox w ++ [{| reply_text := u "✅ Запис збережено: "
                                                      ++ category_name ++ text;
                                                  reply_markup := Some ReplyKeyboardRemove |}])
  /\ (env_store_fault env = true ->
      db w' = db w
      /\ outbox w'
         = outbox w ++ [{| reply_text :=
                             u "⚠ Помилка збереження у БД, але задача у Bitrix створена";
                           reply_markup := Some ReplyKeyboardRemove |}]).
Proof.
  intros Hc Hp w' task. subst w' task. unfold save_record. rewrite Hc.
  unfold add_record, create_task, records_of. rewrite Hp.
  destruct (env_store_fault env), (env_task_add env) as [task_id|]; cbn;
    rewrite <- ?app_assoc; cbn.
  - split; [reflexivity|]. split; [discriminate | auto].
  - split; [reflexivity|]. split; [discriminate | auto].
  - split; [reflexivity|]. split; [|discriminate]. intros _.
    rewrite lookup_total_insert_eq. cbn. split; [reflexivity|]. eauto.
  - split; [reflexivity|]. split; [|discriminate]. intros _.
    rewrite lookup_total_insert_eq. cbn. split; [reflexivity|]. eauto.
Qed.

Lemma records_appended_same (n : nat) (w w' : World) :
  db w' = db w -> records_appended n w w'.
Proof.
  intros E prefix. rewrite E. repeat split. exists []. rewrite app_nil_r.
  split; [reflexivity | simpl; lia].
Qed.

Lemma save_record_appends (env : Env) (update : Update)
    (code phone comment category_name employee_name : str) (responsible_id : Z)
    (department : string) (w : World) :
  records_appended 1 w (save_record env update code phone comment category_name
                                    employee_name responsible_id department w).
Proof.
  unfold save_record.
  destruct (find_contact_by_phone env phone) as [c|];
    [|now apply records_appended_same].
  unfold add_record, create_task.
  destruct (get_table_prefix department) as [prefix|];
    [|destruct (env_task_add env); now apply records_appended_same].
  destruct (env_store_fault env);
    [destruct (env_task_add env); now apply records_appended_same|].
  intros prefix'. destruct (env_task_add env); cbn;
    (destruct (decide (prefix = prefix')) as [<- | Hne];
     [rewrite lookup_total_insert_eq; cbn; repeat split; eexists; split;
      [reflexivity | simpl; lia]
     |rewrite lookup_total_insert_ne by exact Hne; repeat split; exists [];
      rewrite app_nil_r; split; [reflexivity | simpl; lia]]).
Qed.

Lemma get_all_categories_db (now now' : Z) (department : string) (use_cache : bool)
    (w : World) :
  db (get_all_categories now now' department use_cache w).2 = db w.
Proof.
  unfold get_all_categories.
  destruct (get_table_prefix department); [|reflexivity].
  destruct use_cache; [|reflexivity].
  destruct (categories_cache w !! department); [|reflexivity].
  destruct (categories_cache_time w !! department); [|reflexivity].
  destruct (now - _ <? _)%Z; reflexivity.
Qed.

Lemma parse_message_db (now now' : Z) (t : str) (department : string) (w : World) :
  db (parse_message now now' t department w).2 = db w.
Proof.
  unfold parse_message.
  pose proof (get_all_categories_db now now' department true w) as E.
  destruct (get_all_categories now now' department true w) as [cats w1]. cbn in E.
  destruct cats as [|cat cats]; [exact E|].
  destruct (re_match _ _) as [[[[|g1 [|g2 [|g3 [|g4 g]]]] m] rest]|]; exact E.
Qed.

(** X15: whatever message arrives and whatever the conversation state, the
    message handler changes no employee and no category, and it removes or
    alters no record: in every department the records present before are
    still the first records afterwards, followed by at most one new
    record. *)
Theorem handle_message_appends_only (env : Env) (update : Update)
    (user_data : gmap string value) (w : World) :
  records_appended 1 w (handle_message env update user_data w).2.
Proof.
  unfold handle_message.
  destruct (get_department_by_chat_id (chat_id update)) as [department|];
    [|now apply records_appended_same].
  destruct (truthy _).
  - unfold handle_duplicate_confirmation. cbn [snd].
    case_bool_decide; [|now apply records_appended_same].
    destruct (_ !! "pending_record"%string) as [[| | | |pending]|];
      try (now apply records_appended_same).
    apply save_record_appends.
  - pose proof (parse_message_db (env_now env) (env_now env) (text update) department w)
      as Edb.
    destruct (parse_message _ _ _ _ w) as [[[[code phone] comment]|] w1]; cbn in Edb;
      [|now apply records_appended_same].
    destruct (get_category_by_code code department w1) as [category|];
      [|now apply records_appended_same].
    destruct (get_employee_by_telegram_id _ _ w1) as [e|];
      (destruct (check_duplicate_record _ _ _ _ _ _ w1);
       [now apply records_appended_same|]);
      cbn [snd]; intros prefix;
      pose proof (save_record_appends env update code phone comment (c_name category)) as Hs.
    + specialize (Hs (e_name e) (e_bitrix_id e) department w1 prefix).
      now rewrite Edb in Hs.
    + specialize (Hs (from_user_full_name update) RESPONSIBLE_ID department w1 prefix).
      now rewrite Edb in Hs.
Qed.

End Handling.

Lemma find_contact_by_phone_exact_witness :
  find_contact_by_phone known_crm (u "063 123 45 67")
  = Some {| ct_id := u "15"; ct_name := u "Olha"; ct_last_name := u "K";
            ct_phones := [u "+380 (63) 123-45-67"] |}
  /\ exists ph, ph ∈ [u "+380 (63) 123-45-67"]
                /\ clean_phone ph = clean_phone (normalize_phone (u "063 123 45 67")).
Proof.
  assert (Hc : find_contact_by_phone known_crm (u "063 123 45 67")
               = Some {| ct_id := u "15"; ct_name := u "Olha"; ct_last_name := u "K";
                         ct_phones := [u "+380 (63) 123-45-67"] |}) by reflexivity.
  split; [exact Hc|].
  destruct (proj1 (find_contact_by_phone_exact known_crm (u "063 123 45 67")) _ Hc)
    as (result & _ & _ & Hph).
  exact Hph.
Defined.

Lemma save_record_known_client_witness :
  find_contact_by_phone known_crm (u "+380631234567")
  = Some {| ct_id := u "15"; ct_name := u "Olha"; ct_last_name := u "K";
            ct_phones := [u "+380 (63) 123-45-67"] |}
  /\ get_table_prefix "support" = Some "support"%string
  /\ env_store_fault known_crm = false
  /\ length (records_of "support"
               (save_record known_crm (demo_update (u "x")) (u "cl1") (u "+380631234567")
                            (u "x") (u "Complaint") (u "Ann") 596 "support"
                            demo_world)) = 1%nat.
Proof.
  assert (Hc : find_contact_by_phone known_crm (u "+380631234567")
               = Some {| ct_id := u "15"; ct_name := u "Olha"; ct_last_name := u "K";
                         ct_phones := [u "+380 (63) 123-45-67"] |}) by reflexivity.
  split; [exact Hc|]. split; [reflexivity|]. split; [reflexivity|].
  destruct (proj1 (proj2 (save_record_known_client known_crm (demo_update (u "x"))
                            (u "cl1") (u "+380631234567") (u "x") (u "Complaint")
                            (u "Ann") 596 "support" "support" demo_world _ Hc eq_refl))
                  eq_refl) as [Hrec _].
  rewrite Hrec. reflexivity.
Defined.
(** ** Onboarding conversations *)

Section OnboardingFlows.
Context `{UnicodeData}.

(** X16: the whole employee conversation.  An administrator who starts it
    in a department chat and then sends a Telegram id, a Bitrix id and a
    name (no message being a command, the store accepting the write) is
    led through the three states in order; the store is untouched until
    the name arrives; afterwards the conversation is over, its fields are
    gone, and the employee is read back with exactly these data. *)
Theorem employee_onboarding_flow (env : Env) (u0 u1 u2 u3 : Update)
    (user_data : gmap string value) (w : World) (department : string) (tg bx : Z) :
  command u0 = Some (u "add_employee") ->
  is_admin (from_user_id u0) = true ->
  get_department_by_chat_id (chat_id u0) = Some department ->
  command u1 = None -> py_int (strip (text u1)) = Some tg ->
  command u2 = None -> py_int (strip (text u2)) = Some bx ->
  command u3 = None -> env_store_fault env = false ->
  let r1 := add_employee_handler env END u0 user_data w in
  let r2 := add_employee_handler env r1.1.1 u1 r1.1.2 r1.2 in
  let r3 := add_employee_handler env r2.1.1 u2 r2.1.2 r2.2 in
  let r4 := add_employee_handler env r3.1.1 u3 r3.1.2 r3.2 in
  r1.1.1 = ADD_EMPLOYEE_TG_ID /\ r2.1.1 = ADD_EMPLOYEE_BITRIX_ID
  /\ r3.1.1 = ADD_EMPLOYEE_NAME /\ db r3.2 = db w
  /\ r4.1.1 = END /\ r4.1.2 = ∅
  /\ get_employee_by_telegram_id tg department r4.2
     = Some {| e_telegram_id := tg; e_name := strip (text u3); e_bitrix_id := bx |}.
Proof.
  intros Hc0 Hadmin Hdep Hc1 Htg Hc2 Hbx Hc3 Hfault r1 r2 r3 r4.
  pose proof (department_has_tables _ _ Hdep) as Hp.
  pose (d1 := <["department"%string := VDepartment department]> user_data).
  pose (d2 := <["new_employee_tg_id"%string := VInt tg]> d1).
  pose (d3 := <["new_employee_bitrix_id"%string := VInt bx]> d2).
  assert (E1 : exists w1, r1 = (ADD_EMPLOYEE_TG_ID, d1, w1) /\ db w1 = db w).
  { eexists. subst r1. unfold add_employee_handler.
    rewrite Hc0, bool_decide_eq_true_2 by reflexivity.
    unfold start_add_employee. rewrite Hadmin, Hdep. split; reflexivity. }
  destruct E1 as (w1 & E1 & Hw1).
  assert (E2 : exists w2, r2 = (ADD_EMPLOYEE_BITRIX_ID, d2, w2) /\ db w2 = db w).
  { eexists. subst r2. rewrite E1. cbn [fst snd]. unfold add_employee_handler.
    rewrite Hc1. unfold add_employee_tg_id. rewrite Htg. split; [reflexivity|].
    exact Hw1. }
  destruct E2 as (w2 & E2 & Hw2).
  assert (E3 : exists w3, r3 = (ADD_EMPLOYEE_NAME, d3, w3) /\ db w3 = db w).
  { eexists. subst r3. rewrite E2. cbn [fst snd]. unfold add_employee_handler.
    rewrite Hc2. unfold add_employee_bitrix_id. rewrite Hbx. split; [reflexivity|].
    exact Hw2. }
  destruct E3 as (w3 & E3 & Hw3).
  assert (Ltg : d3 !! "new_employee_tg_id"%string = Some (VInt tg)).
  { subst d3 d2. rewrite lookup_insert_ne by discriminate. apply lookup_insert_eq. }
  assert (Lbx : d3 !! "new_employee_bitrix_id"%string = Some (VInt bx)).
  { subst d3. apply lookup_insert_eq. }
  assert (Ldep : d3 !! "department"%string = Some (VDepartment department)).
  { subst d3 d2 d1. rewrite !lookup_insert_ne by discriminate. apply lookup_insert_eq. }
  assert (E4 : exists w4,
             r4 = (END, ∅, w4)
             /\ db w4 = db (add_employee false tg (strip (text u3)) bx department w3).2).
  { subst r4. rewrite E3. cbn [fst snd]. unfold add_employee_handler.
    rewrite Hc3. unfold add_employee_name. rewrite Ltg, Lbx, Ldep, Hfault.
    destruct (add_employee false tg (strip (text u3)) bx department w3) as [[|] w4];
      eexists; split; reflexivity. }
  destruct E4 as (w4 & E4 & Hw4).
  clearbody r1 r2 r3 r4. subst r1 r2 r3 r4. cbn [fst snd].
  repeat (split; [first [reflexivity | assumption]|]).
  unfold get_employee_by_telegram_id. rewrite Hp, Hw4.
  unfold add_employee. rewrite Hp. cbn [snd set_db db].
  rewrite lookup_total_insert_eq. cbn [t_employees].
  rewrite find_upsert_employee. cbn [e_telegram_id].
  now destruct (decide (tg = tg)).
Qed.

(** X17: a user who is no administrator, or who writes outside the
    department chats, cannot open either conversation: the state stays
    closed, the conversation fields, the store, the cache and the CRM log
    are as before, and the only thing sent is one refusal, in answer to the
    command that would open the conversation: the refusal of access for a
    user who is no administrator, the refusal of the chat otherwise.  No
    prompt is ever sent. *)
Theorem onboarding_refused (env : Env) (update : Update)
    (user_data : gmap string value) (w : World) :
  is_admin (from_user_id update) = false
  \/ get_department_by_chat_id (chat_id update) = None ->
  let re := add_employee_handler env END update user_data w in
  let rc := add_category_handler env END update user_data w in
  let refusal :=
    {| reply_text :=
         if is_admin (from_user_id update)
         then u "❌ Ця команда доступна тільки в чатах підтримки або досудебки"
         else u "❌ У вас немає доступу до цієї команди";
       reply_markup := None |} in
  (re.1 = (END, user_data) /\ db re.2 = db w
   /\ categories_cache re.2 = categories_cache w
   /\ categories_cache_time re.2 = categories_cache_time w
   /\ crm_log re.2 = crm_log w
   /\ outbox re.2 = (if bool_decide (command update = Some (u "add_employee"))
                     then outbox w ++ [refusal] else outbox w))
  /\ (rc.1 = (END, user_data) /\ db rc.2 = db w
      /\ categories_cache rc.2 = categories_cache w
      /\ categories_cache_time rc.2 = categories_cache_time w
      /\ crm_log rc.2 = crm_log w
      /\ outbox rc.2 = (if bool_decide (command update = Some (u "add_category"))
                        then outbox w ++ [refusal] else outbox w)).
Proof.
  intros Hno. cbn zeta. unfold add_employee_handler, add_category_handler.
  destruct (command update) as [name|].
  2: { rewrite !bool_decide_eq_false_2 by discriminate. repeat split. }
  unfold start_add_employee, start_add_category.
  split.
  - destruct (decide (name = u "add_employee")) as [-> | Hne].
    + rewrite !bool_decide_eq_true_2 by reflexivity.
      destruct (is_admin (from_user_id update)); cbn [negb].
      * destruct Hno as [Hno | Hno]; [discriminate|]. rewrite Hno. repeat split.
      * repeat split.
    + rewrite (bool_decide_eq_false_2 (name = _)) by exact Hne.
      rewrite bool_decide_eq_false_2 by congruence. repeat split.
  - destruct (decide (name = u "add_category")) as [-> | Hne].
    + rewrite !bool_decide_eq_true_2 by reflexivity.
      destruct (is_admin (from_user_id update)); cbn [negb].
      * destruct Hno as [Hno | Hno]; [discriminate|]. rewrite Hno. repeat split.
      * repeat split.
    + rewrite (bool_decide_eq_false_2 (name = _)) by exact Hne.
      rewrite bool_decide_eq_false_2 by congruence. repeat split.
Qed.

(** X18: what the two conversations can touch.  The employee conversation
    never changes a category, a record, the cache or the CRM log, and
    changes employees only on a text received in its last state; the
    category conversation never changes an employee, a record or the CRM
    log, and changes categories only on a text received in its last
    state. *)
Theorem onboarding_footprint (env : Env) (state : conv_state) (update : Update)
    (user_data : gmap string value) (w : World) (prefix : string) :
  let re := add_employee_handler env state update user_data w in
  let rc := add_category_handler env state update user_data w in
  (t_categories (db re.2 !!! prefix) = t_categories (db w !!! prefix)
   /\ t_records (db re.2 !!! prefix) = t_records (db w !!! prefix)
   /\ categories_cache re.2 = categories_cache w
   /\ crm_log re.2 = crm_log w
   /\ (state <> ADD_EMPLOYEE_NAME \/ command update <> None -> db re.2 = db w))
  /\ (t_employees (db rc.2 !!! prefix) = t_employees (db w !!! prefix)
      /\ t_records (db rc.2 !!! prefix) = t_records (db w !!! prefix)
      /\ crm_log rc.2 = crm_log w
      /\ (state <> ADD_CATEGORY_NAME \/ command update <> None -> db rc.2 = db w)).
Proof.
  cbn zeta. split.
  - unfold add_employee_handler.
    destruct state; destruct (command update) as [name|];
      try case_bool_decide;
      unfold start_add_employee, add_employee_tg_id, add_employee_bitrix_id,
             cancel_conversation;
      try (destruct (negb _); [|destruct (get_department_by_chat_id _)]);
      try (destruct (py_int _));
      try (repeat split; fail).
    unfold add_employee_name.
    destruct (_ !! "new_employee_tg_id"%string) as [[| tg | | |]|];
      try (repeat split; intros [? | ?]; congruence).
    destruct (_ !! "new_employee_bitrix_id"%string) as [[| bx | | |]|];
      try (repeat split; intros [? | ?]; congruence).
    destruct (_ !! "department"%string) as [[| | | department |]|];
      try (repeat split; intros [? | ?]; congruence).
    unfold add_employee.
    destruct (get_table_prefix department) as [p|];
      [destruct (env_store_fault env)|]; cbn -[u str_of_Z];
      try (repeat split; intros [? | ?]; congruence).
    destruct (decide (p = prefix)) as [<- | Hne].
    + rewrite lookup_total_insert_eq. cbn -[u str_of_Z]. repeat split.
      intros [? | ?]; congruence.
    + rewrite lookup_total_insert_ne by exact Hne. repeat split.
      intros [? | ?]; congruence.
  - unfold add_category_handler.
    destruct state; destruct (command update) as [name|];
      try case_bool_decide;
      unfold start_add_category, add_category_code, cancel_conversation;
      try (destruct (negb (is_admin _)); [|destruct (get_department_by_chat_id _)]);
      try (destruct (negb (code_format _)));
      try (repeat split; fail).
    unfold add_category_name.
    destruct (_ !! "new_category_code"%string) as [[| | code | |]|];
      try (repeat split; intros [? | ?]; congruence).
    destruct (_ !! "department"%string) as [[| | | department |]|];
      try (repeat split; intros [? | ?]; congruence).
    unfold add_category.
    destruct (get_table_prefix department) as [p|];
      [destruct (env_store_fault env)|]; cbn -[u str_of_Z];
      try (repeat split; intros [? | ?]; congruence).
    destruct (decide (p = prefix)) as [<- | Hne].
    + rewrite lookup_total_insert_eq. cbn -[u str_of_Z]. repeat split.
      intros [? | ?]; congruence.
    + rewrite lookup_total_insert_ne by exact Hne. repeat split.
      intros [? | ?]; congruence.
Qed.

End OnboardingFlows.

Lemma employee_onboarding_flow_witness :
  is_admin (from_user_id start_update) = true
  /\ py_int (strip (text (admin_text (u " 42 ")))) = Some 42%Z
  /\ let r1 := add_employee_handler empty_crm END start_update ∅ demo_world in
     let r2 := add_employee_handler empty_crm r1.1.1 (admin_text (u " 42 ")) r1.1.2 r1.2 in
     let r3 := add_employee_handler empty_crm r2.1.1 (admin_text (u "7")) r2.1.2 r2.2 in
     let r4 := add_employee_handler empty_crm r3.1.1 (admin_text (u "Ann B")) r3.1.2 r3.2 in
     get_employee_by_telegram_id 42 "support" r4.2
     = Some {| e_telegram_id := 42; e_name := u "Ann B"; e_bitrix_id := 7 |}.
Proof.
  split; [reflexivity|]. split; [reflexivity|].
  pose proof (employee_onboarding_flow empty_crm start_update (admin_text (u " 42 "))
                (admin_text (u "7")) (admin_text (u "Ann B")) ∅ demo_world "support"
                42 7 eq_refl eq_refl eq_refl eq_refl eq_refl eq_refl eq_refl eq_refl
                eq_refl) as Hflow.
  exact (proj2 (proj2 (proj2 (proj2 (proj2 (proj2 Hflow)))))).
Defined.

(** ** Codes, parsed messages and phone formats *)

Section CodeFacts.
Context `{UnicodeData}.

Lemma valid_code_chars (code : str) :
  valid_code code = true -> Forall (fun c => (65 <= c <= 90) \/ (48 <= c <= 57)) code.
Proof.
  unfold valid_code. rewrite !andb_true_iff. intros [[Hall _] _].
  apply Forall_forall. intros c Hc.
  rewrite forallb_forall in Hall. specialize (Hall c (proj1 (list_elem_of_In _ _) Hc)).
  unfold is_ascii_digit in Hall.
  rewrite orb_true_iff, !andb_true_iff, !N.leb_le in Hall. lia.
Qed.

Lemma char_upper_code_char (c : N) :
  (65 <= c <= 90) \/ (48 <= c <= 57) -> char_upper c = [c].
Proof.
  intros Hc. unfold char_upper, is_ascii.
  assert (E1 : (c <? 128) = true) by (apply N.ltb_lt; lia). rewrite E1.
  assert (E2 : (97 <=? c) = false) by (apply N.leb_gt; lia). now rewrite E2.
Qed.

Lemma upper_fixed (code : str) :
  Forall (fun c => (65 <= c <= 90) \/ (48 <= c <= 57)) code -> upper code = code.
Proof.
  unfold upper. induction 1 as [|c code Hc _ IH]; simpl; [reflexivity|].
  now rewrite (char_upper_code_char c Hc), IH.
Qed.

Lemma upper_fixed_of_format (code : str) :
  code_format code = true -> upper code = code.
Proof.
  unfold code_format. intros Hf. apply orb_true_iff in Hf as [Hv | Hl].
  - now apply upper_fixed, valid_code_chars.
  - destruct (last code) as [x|] eqn:El; [|discriminate].
    apply last_Some in El as [l' ->].
    destruct (N.eqb_spec x 10) as [-> | Hne].
    + rewrite removelast_last in Hl. unfold upper. rewrite flat_map_app.
      fold (upper l'). rewrite (upper_fixed l') by now apply valid_code_chars.
      reflexivity.
    + exfalso. destruct x as [|p]; [discriminate|].
      do 4 (destruct p as [p|p|]; try discriminate). congruence.
Qed.

Lemma literal_ignorecase_ascii (c t : N) :
  (65 <= c <= 90) \/ (48 <= c <= 57) -> is_ascii t = true ->
  literal_ignorecase c t = true -> char_upper t = [c].
Proof.
  intros Hc Ht. unfold is_ascii in Ht. apply N.ltb_lt in Ht.
  unfold literal_ignorecase, is_ascii, is_ascii_letter, tolower, ignorecase_fixes,
    char_upper, is_ascii, mem.
  assert (E1 : (c <? 128) = true) by (apply N.ltb_lt; lia).
  assert (E2 : (t <? 128) = true) by (apply N.ltb_lt; lia).
  rewrite E1, E2.
  destruct Hc as [Hc | Hc].
  - assert (E3 : (65 <=? c) = true) by (apply N.leb_le; lia).
    assert (E4 : (c <=? 90) = true) by (apply N.leb_le; lia).
    rewrite E3, E4. cbn [andb orb].
    destruct (N.leb_spec 65 t), (N.leb_spec t 90), (N.leb_spec 97 t), (N.leb_spec t 122);
      cbn [andb]; try lia;
      destruct (c + 32 =? 105); destruct (c + 32 =? 115); cbn [existsb orb];
      rewrite ?orb_false_r, ?orb_true_iff, ?N.eqb_eq;
      intros Hm; f_equal; lia.
  - assert (E3 : (65 <=? c) = false) by (apply N.leb_gt; lia).
    assert (E4 : (97 <=? c) = false) by (apply N.leb_gt; lia).
    rewrite E3, E4. cbn [andb orb]. intros Hm. apply N.eqb_eq in Hm. subst t.
    now rewrite E4.
Qed.


Lemma matches_message_pattern_groups (codes : list str) (s : str) (g : list str)
    (m rest : str) :
  matches (message_pattern codes) s (g, m, rest) ->
  exists code pre ph cm tail,
    g = [pre; ph; cm] /\ code ∈ codes /\ code_matches code pre /\ phone_token ph
    /\ cm <> [] /\ s = pre ++ tail.
Proof.
  unfold message_pattern. intros Hm.
  apply matches_seq in Hm as (g1 & pre & s1 & g1' & m1' & Hh & Hm & -> & ->).
  apply matches_group in Hh as (gc & Hcode & ->).
  apply matches_codes in Hcode as (code & Hin & Hcode).
  apply matches_literal in Hcode as (-> & -> & Hcode).
  apply matches_seq in Hm as (g2 & ws1 & s2 & g2' & m2' & Hh & Hm & -> & ->).
  apply matches_plus in Hh as (-> & -> & Hws1 & Hsp1).
  apply matches_seq in Hm as (g3 & ph & s3 & g3' & m3' & Hh & Hm & -> & ->).
  apply matches_group in Hh as (gp & Hphone & ->).
  apply matches_phone in Hphone as (-> & -> & Hphone).
  apply matches_seq in Hm as (g4 & ws2 & s4 & g4' & m4' & Hh & Hm & -> & ->).
  apply matches_star in Hh as (-> & -> & Hsp2).
  apply matches_seq in Hm as (g5 & bar & s5 & g5' & m5' & Hh & Hm & -> & ->).
  apply matches_bar in Hh as (-> & -> & ->).
  apply matches_seq in Hm as (g6 & ws3 & s6 & g6' & m6' & Hh & Hm & -> & ->).
  apply matches_star in Hh as (-> & E & Hsp3).
  apply matches_group in Hm as (gm & Hcomment & ->).
  apply matches_plus in Hcomment as (-> & -> & Hne & _).
  subst. exists code, pre, ph, m6'. eexists. repeat split; try eassumption.
Qed.

Lemma normalize_phone_ascii_digits (phone : str) :
  Forall (fun c => is_ascii_digit c = true) (clean_phone phone) ->
  exists rest, normalize_phone phone = u "+380" ++ rest
               /\ Forall (fun c => is_ascii_digit c = true) rest.
Proof.
  unfold normalize_phone. intros Hd.
  set (d := clean_phone phone) in *. clearbody d.
  destruct (startswith (u "0") d) eqn:E0.
  - apply startswith_app in E0 as [t ->].
    exists t. split; [reflexivity|]. now inversion Hd.
  - destruct (startswith (u "380") d) eqn:E380; cbn [negb].
    + apply startswith_app in E380 as [t ->].
      exists t. split; [reflexivity|].
      change (u "380" ++ t) with ([51; 56; 48] ++ t) in Hd.
      now apply Forall_app in Hd.
    + exists (lstrip_chars (u "380") d). split; [reflexivity|].
      now apply Forall_lstrip_chars.
Qed.

Lemma ascii_digit_decimal (c : N) : is_ascii_digit c = true -> isdecimal c = true.
Proof.
  intros Hc. unfold isdecimal, is_ascii. rewrite Hc.
  unfold is_ascii_digit in Hc. apply andb_true_iff in Hc as [_ Hle].
  apply N.leb_le in Hle.
  assert (E : (c <? 128) = true) by (apply N.ltb_lt; lia).
  now rewrite E.
Qed.

Lemma clean_phone_token (ph : str) :
  phone_token ph -> Forall (fun c => is_ascii_digit c = true) (clean_phone ph).
Proof.
  intros (d & _ & Hd & [-> | ->]).
  - rewrite clean_phone_fixed; [exact Hd|].
    eapply Forall_impl; [exact Hd|]. apply ascii_digit_decimal.
  - unfold clean_phone. rewrite filter_cons_False by exact id.
    fold (clean_phone d). rewrite clean_phone_fixed; [exact Hd|].
    eapply Forall_impl; [exact Hd|]. apply ascii_digit_decimal.
Qed.

(** X20: what a parsed message consists of.  The phone is canonical: a
    plus sign, 380 and ASCII digits, a fixed point of the normaliser.  The
    code is the upper-case form of the beginning of the trimmed text, which
    matches a registered code up to case; and if the text is ASCII and the
    registered codes have the admitted form, the code returned is itself
    one of the registered codes. *)
Theorem parse_message_result (now now' : Z) (text : str) (department : string)
    (w : World) (code phone comment : str) :
  (parse_message now now' text department w).1 = Some (code, phone, comment) ->
  let codes := c_code <$> (get_all_categories now now' department true w).1 in
  (exists digits, phone = u "+380" ++ digits
                  /\ Forall (fun c => is_ascii_digit c = true) digits)
  /\ normalize_phone phone = phone
  /\ (exists registered pre tail,
         registered ∈ codes /\ code_matches registered pre
         /\ strip text = pre ++ tail /\ code = upper pre)
  /\ (Forall (fun c => valid_code c = true) codes ->
      Forall (fun c => is_ascii c = true) text ->
      code ∈ codes).
Proof.
  intros Hparse codes. subst codes. unfold parse_message in Hparse.
  destruct (get_all_categories now now' department true w) as [cats w1].
  cbn [fst] in *. destruct cats as [|cat cats]; [discriminate|].
  set (codes := c_code <$> cat :: cats) in *.
  unfold re_match in Hparse.
  destruct (run (message_pattern codes) (strip text)) as [|[[g m] rest] l] eqn:Er;
    [discriminate|].
  assert (Hx : (g, m, rest) ∈ run (message_pattern codes) (strip text))
    by (rewrite Er; left).
  apply run_matches, matches_message_pattern_groups in Hx
    as (registered & pre & ph & cm & tail & -> & Hin & Hm & Hph & Hcm & Etext).
  cbn [head fst] in Hparse. injection Hparse as <- <- <-.
  destruct (normalize_phone_ascii_digits ph (clean_phone_token ph Hph))
    as (digits & Ephone & Hdigits).
  split; [eauto|]. split; [|split].
  - rewrite Ephone. apply normalize_phone_canonical.
    eapply Forall_impl; [exact Hdigits|]. apply ascii_digit_decimal.
  - exists registered, pre, tail. auto.
  - intros Hvalid Hascii.
    assert (Hreg : Forall (fun c => (65 <= c <= 90) \/ (48 <= c <= 57)) registered).
    { apply valid_code_chars. rewrite Forall_forall in Hvalid. now apply Hvalid. }
    assert (Hpre : Forall (fun c => is_ascii c = true) pre).
    { apply Forall_forall. intros c Hc. rewrite Forall_forall in Hascii.
      apply Hascii, elem_of_strip. rewrite Etext. apply elem_of_app. now left. }
    assert (E : upper pre = registered); [|now rewrite E].
    clear -Hm Hreg Hpre. unfold code_matches in Hm. unfold upper.
    induction Hm as [|c t code pre Hct Hm IH]; [reflexivity|].
    inversion Hreg; inversion Hpre; subst. simpl.
    rewrite (literal_ignorecase_ascii c t) by assumption.
    simpl. f_equal. now apply IH.
Qed.


(** X19: the whole category conversation.  An administrator who starts it
    in a department chat and then sends a code of the admitted form and a
    name (no message being a command, the store accepting the write) is
    led through the two states in order; the store is untouched until the
    name arrives; afterwards the conversation is over, its fields are gone,
    the category is found under the code as sent, stored in upper case with
    that name, and the department has no cache entry left. *)
Theorem category_onboarding_flow (env : Env) (u0 u1 u2 : Update)
    (user_data : gmap string value) (w : World) (department : string) :
  command u0 = Some (u "add_category") ->
  is_admin (from_user_id u0) = true ->
  get_department_by_chat_id (chat_id u0) = Some department ->
  command u1 = None -> code_format (upper (strip (text u1))) = true ->
  command u2 = None -> env_store_fault env = false ->
  let r1 := add_category_handler env END u0 user_data w in
  let r2 := add_category_handler env r1.1.1 u1 r1.1.2 r1.2 in
  let r3 := add_category_handler env r2.1.1 u2 r2.1.2 r2.2 in
  r1.1.1 = ADD_CATEGORY_CODE /\ r2.1.1 = ADD_CATEGORY_NAME /\ db r2.2 = db w
  /\ r3.1.1 = END /\ r3.1.2 = ∅
  /\ get_category_by_code (strip (text u1)) department r3.2
     = Some {| c_code := upper (strip (text u1)); c_name := strip (text u2) |}
  /\ categories_cache r3.2 !! department = None.
Proof.
  intros Hc0 Hadmin Hdep Hc1 Hfmt Hc2 Hfault r1 r2 r3.
  pose proof (department_has_tables _ _ Hdep) as Hp.
  pose proof (upper_fixed_of_format _ Hfmt) as Hup.
  pose (d1 := <["department"%string := VDepartment department]> user_data).
  pose (d2 := <["new_category_code"%string := VStr (upper (strip (text u1)))]> d1).
  assert (E1 : exists w1, r1 = (ADD_CATEGORY_CODE, d1, w1) /\ db w1 = db w).
  { eexists. subst r1. unfold add_category_handler.
    rewrite Hc0, bool_decide_eq_true_2 by reflexivity.
    unfold start_add_category. rewrite Hadmin, Hdep. split; reflexivity. }
  destruct E1 as (w1 & E1 & Hw1).
  assert (E2 : exists w2, r2 = (ADD_CATEGORY_NAME, d2, w2) /\ db w2 = db w).
  { eexists. subst r2. rewrite E1. cbn [fst snd]. unfold add_category_handler.
    rewrite Hc1. unfold add_category_code. rewrite Hfmt. cbn [negb].
    split; [reflexivity | exact Hw1]. }
  destruct E2 as (w2 & E2 & Hw2).
  assert (Lcode : d2 !! "new_category_code"%string
                  = Some (VStr (upper (strip (text u1))))).
  { subst d2. apply lookup_insert_eq. }
  assert (Ldep : d2 !! "department"%string = Some (VDepartment department)).
  { subst d2 d1. rewrite lookup_insert_ne by discriminate. apply lookup_insert_eq. }
  set (added := add_category false (upper (strip (text u1))) (strip (text u2))
                             department w2).
  assert (E3 : exists w3, r3 = (END, ∅, w3) /\ db w3 = db added.2
                          /\ categories_cache w3 = categories_cache added.2).
  { subst r3. rewrite E2. cbn [fst snd]. unfold add_category_handler.
    rewrite Hc2. unfold add_category_name. rewrite Lcode, Ldep, Hfault.
    fold added. destruct added as [[|] w3]; eexists; repeat split. }
  destruct E3 as (w3 & E3 & Hw3 & Hcache).
  clearbody r1 r2 r3. subst r1 r2 r3. cbn [fst snd].
  repeat (split; [first [reflexivity | assumption]|]).
  split.
  - unfold get_category_by_code. rewrite Hp, Hw3. subst added.
    unfold add_category. rewrite Hp. cbn [snd set_db set_cache db].
    rewrite lookup_total_insert_eq. cbn [t_categories].
    rewrite find_upsert_category. cbn [c_code]. rewrite Hup.
    now destruct (decide (upper (strip (text u1)) = upper (strip (text u1)))).
  - rewrite Hcache. subst added. unfold add_category. rewrite Hp.
    cbn [snd set_cache categories_cache]. apply lookup_delete_eq.
Qed.

Lemma startswith_head_ne (c : N) (p d : str) :
  match d with x :: _ => x <> c | [] => True end ->
  startswith (c :: p) d = false.
Proof.
  destruct d as [|x d]; [reflexivity|]. intros Hne. cbn [startswith].
  apply andb_false_iff. left. apply N.eqb_neq. congruence.
Qed.

(** X21: the normaliser does not depend on the formatting of its input,
    only on the digits; the national form (trunk 0), the international form
    without plus sign and, for a subscriber number that does not begin
    with 0, 3 or 8, the bare subscriber number and the form with 80 in
    front all give the same canonical phone. *)
Theorem normalize_phone_formats (p d : str) :
  Forall (fun c => isdecimal c = true) d ->
  normalize_phone (clean_phone p) = normalize_phone p
  /\ normalize_phone (u "0" ++ d) = u "+380" ++ d
  /\ normalize_phone (u "380" ++ d) = u "+380" ++ d
  /\ (match d with x :: _ => x <> 48 /\ x <> 51 /\ x <> 56 | [] => True end ->
      normalize_phone d = u "+380" ++ d
      /\ normalize_phone (u "80" ++ d) = u "+380" ++ d).
Proof.
  intros Hd.
  assert (H0 : Forall (fun c => isdecimal c = true) (u "0" ++ d))
    by (change (u "0" ++ d) with (48 :: d); constructor; [reflexivity | exact Hd]).
  assert (H380 : Forall (fun c => isdecimal c = true) (u "380" ++ d))
    by (change (u "380" ++ d) with (51 :: 56 :: 48 :: d);
        repeat (constructor; [reflexivity|]); exact Hd).
  assert (H80 : Forall (fun c => isdecimal c = true) (u "80" ++ d))
    by (change (u "80" ++ d) with (56 :: 48 :: d);
        repeat (constructor; [reflexivity|]); exact Hd).
  split; [|split; [|split]].
  - unfold normalize_phone.
    now rewrite (clean_phone_fixed (clean_phone p)) by apply clean_phone_decimal.
  - unfold normalize_phone. rewrite (clean_phone_fixed _ H0). reflexivity.
  - unfold normalize_phone. rewrite (clean_phone_fixed _ H380). reflexivity.
  - intros Hhead.
    assert (Hs0 : startswith (u "0") d = false).
    { apply (startswith_head_ne 48 []). destruct d; tauto. }
    assert (Hs3 : startswith (u "380") d = false).
    { apply (startswith_head_ne 51 [56; 48]). destruct d; tauto. }
    assert (Hl : lstrip_chars (u "380") d = d).
    { destruct d as [|x d']; [reflexivity|]. cbn [lstrip_chars].
      destruct Hhead as (Ha & Hb & Hc).
      assert (E : mem x (u "380") = false); [|now rewrite E].
      change (mem x (u "380")) with ((x =? 51) || ((x =? 56) || ((x =? 48) || false))).
      rewrite !orb_false_iff, !N.eqb_neq. auto. }
    split.
    + unfold normalize_phone. rewrite (clean_phone_fixed _ Hd), Hs0, Hs3.
      cbn [negb]. now rewrite Hl.
    + unfold normalize_phone. rewrite (clean_phone_fixed _ H80).
      change (startswith (u "0") (u "80" ++ d)) with false.
      change (startswith (u "380") (u "80" ++ d)) with false. cbn [negb].
      change (lstrip_chars (u "380") (u "80" ++ d)) with (lstrip_chars (u "380") d).
      now rewrite Hl.
Qed.

End CodeFacts.

Lemma onboarding_refused_witness :
  is_admin (from_user_id intruder_update) = false
  /\ (add_employee_handler empty_crm END intruder_update ∅ demo_world).1 = (END, ∅)
  /\ crm_log (add_employee_handler empty_crm END intruder_update ∅ demo_world).2
     = crm_log demo_world.
Proof.
  split; [reflexivity|].
  pose proof (proj1 (onboarding_refused empty_crm intruder_update ∅ demo_world
                       (or_introl eq_refl))) as Hre.
  split; [exact (proj1 Hre) | exact (proj1 (proj2 (proj2 (proj2 (proj2 Hre)))))].
Defined.

Lemma onboarding_footprint_witness :
  ADD_EMPLOYEE_TG_ID <> ADD_EMPLOYEE_NAME
  /\ db (add_employee_handler empty_crm ADD_EMPLOYEE_TG_ID (admin_text (u "42"))
           ∅ demo_world).2 = db demo_world.
Proof.
  assert (Hne : ADD_EMPLOYEE_TG_ID <> ADD_EMPLOYEE_NAME) by discriminate.
  split; [exact Hne|].
  destruct (proj1 (onboarding_footprint empty_crm ADD_EMPLOYEE_TG_ID (admin_text (u "42"))
                     ∅ demo_world "support")) as (_ & _ & _ & _ & Hdb).
  exact (Hdb (or_introl Hne)).
Defined.

Lemma category_onboarding_flow_witness :
  is_admin (from_user_id start_category_update) = true
  /\ code_format (upper (strip (text (admin_text (u " cl2 "))))) = true
  /\ let r1 := add_category_handler empty_crm END start_category_update ∅ cached_world in
     let r2 := add_category_handler empty_crm r1.1.1 (admin_text (u " cl2 ")) r1.1.2 r1.2 in
     let r3 := add_category_handler empty_crm r2.1.1 (admin_text (u "Claim")) r2.1.2 r2.2 in
     get_category_by_code (strip (text (admin_text (u " cl2 ")))) "support" r3.2
     = Some {| c_code := upper (strip (text (admin_text (u " cl2 "))));
               c_name := strip (text (admin_text (u "Claim"))) |}
     /\ categories_cache r3.2 !! "support"%string = None.
Proof.
  split; [reflexivity|]. split; [reflexivity|].
  pose proof (category_onboarding_flow empty_crm start_category_update
                (admin_text (u " cl2 ")) (admin_text (u "Claim")) ∅ cached_world
                "support" eq_refl eq_refl eq_refl eq_refl eq_refl eq_refl eq_refl)
    as Hflow.
  exact (proj2 (proj2 (proj2 (proj2 (proj2 Hflow))))).
Defined.

Lemma parse_message_result_witness :
  (parse_message 0 0 (u "cl1 0631234567 | client called") "support" demo_world).1
  = Some (u "CL1", u "+380631234567", u "client called")
  /\ Forall (fun c => valid_code c = true)
            (c_code <$> (get_all_categories 0 0 "support" true demo_world).1)
  /\ Forall (fun c => is_ascii c = true) (u "cl1 0631234567 | client called")
  /\ u "CL1" ∈ c_code <$> (get_all_categories 0 0 "support" true demo_world).1.
Proof.
  assert (Hparse : (parse_message 0 0 (u "cl1 0631234567 | client called") "support"
                                  demo_world).1
                   = Some (u "CL1", u "+380631234567", u "client called"))
    by (vm_compute; reflexivity).
  assert (Hvalid : Forall (fun c => valid_code c = true)
                     (c_code <$> (get_all_categories 0 0 "support" true demo_world).1))
    by (vm_compute; repeat constructor).
  assert (Hascii : Forall (fun c => is_ascii c = true)
                          (u "cl1 0631234567 | client called"))
    by (vm_compute; repeat constructor).
  split; [exact Hparse|]. split; [exact Hvalid|]. split; [exact Hascii|].
  exact (proj2 (proj2 (proj2 (parse_message_result 0 0 _ "support" demo_world _ _ _
                                Hparse))) Hvalid Hascii).
Defined.

Lemma normalize_phone_formats_witness :
  Forall (fun c => isdecimal c = true) (u "631234567")
  /\ normalize_phone (u "0631234567") = u "+380631234567"
  /\ normalize_phone (u "80631234567") = u "+380631234567".
Proof.
  assert (Hd : Forall (fun c => isdecimal c = true) (u "631234567"))
    by repeat constructor.
  split; [exact Hd|].
  destruct (normalize_phone_formats [] (u "631234567") Hd) as (_ & Hnat & _ & Hbare).
  split; [exact Hnat|].
  refine (proj2 (Hbare _)). vm_compute. repeat split; discriminate.
Defined.

Lemma get_records_by_phone_rows_witness :
  join_record (db recorded_world !!! "support"%string) demo_record
    ∈ get_records_by_phone 460000000 (u "+380631234567") 7 "support" recorded_world
  /\ h_phone (join_record (db recorded_world !!! "support"%string) demo_record)
     = u "+380631234567".
Proof.
  assert (Hrow : join_record (db recorded_world !!! "support"%string) demo_record
                   ∈ get_records_by_phone 460000000 (u "+380631234567") 7 "support"
                       recorded_world)
    by (vm_compute; left).
  split; [exact Hrow|].
  exact (proj1 (proj1 (proj2 (get_records_by_phone_rows 460000000 7 (u "+380631234567")
                                "support" recorded_world)) _ Hrow)).
Defined.

Lemma get_team_stats_totals_witness :
  get_table_prefix "archive" = None
  /\ get_team_stats 0 7 "archive" recorded_world
     = {| ts_total := 0; ts_by_employee := []; ts_by_category := [] |}.
Proof.
  split; [reflexivity|].
  exact (proj2 (proj2 (proj2 (proj2 (proj2
           (get_team_stats_totals 0 7 "archive" recorded_world))))) eq_refl).
Defined.

(** ** Provenance of records and the employee listing *)

Section Provenance.
Context `{UnicodeData}.

Lemma save_record_new_record (env : Env) (update : Update)
    (code phone comment category_name employee_name : str) (responsible_id : Z)
    (department : string) (w : World) (prefix : string) (r : record_row) :
  let w' := save_record env update code phone comment category_name employee_name
                        responsible_id department w in
  r ∈ t_records (db w' !!! prefix) ->
  r ∉ t_records (db w !!! prefix) ->
  is_Some (find_contact_by_phone env phone)
  /\ r_phone r = phone
  /\ r_employee_telegram_id r = from_user_id update
  /\ r_timestamp r = env_now env
  /\ exists title responsible deadline contact_id,
       TaskAdd title (r_comment r) responsible deadline contact_id ∈ crm_log w'.
Proof.
  cbn zeta. unfold save_record.
  destruct (find_contact_by_phone env phone) as [c|]; [|intros Hin Hout; tauto].
  unfold add_record, create_task.
  destruct (get_table_prefix department) as [p|];
    [|destruct (env_task_add env); intros Hin Hout; tauto].
  destruct (env_store_fault env);
    [destruct (env_task_add env); intros Hin Hout; tauto|].
  destruct (decide (p = prefix)) as [<- | Hne].
  - destruct (env_task_add env); cbn -[u];
      rewrite lookup_total_insert_eq; cbn -[u];
      intros Hin Hout; apply elem_of_app in Hin as [Hin | Hin]; try tauto;
      apply list_elem_of_singleton in Hin; subst r; cbn -[u];
      (split; [eauto|]); repeat (split; [reflexivity|]);
      do 4 eexists; rewrite ?elem_of_app, ?elem_of_cons; eauto.
  - destruct (env_task_add env); cbn -[u];
      rewrite lookup_total_insert_ne by exact Hne; intros Hin Hout; tauto.
Qed.

(** X22: where a new record comes from.  Every record that the message
    handler adds, on a fresh submission or on a confirmed duplicate,
    belongs to a phone for which the CRM search found a contact, carries
    the id of the sender and the instant of the handler run, and has a task
    request with its comment in the CRM log. *)
Theorem handle_message_record_has_contact (env : Env) (update : Update)
    (user_data : gmap string value) (w : World) (prefix : string) (r : record_row) :
  let w' := (handle_message env update user_data w).2 in
  r ∈ t_records (db w' !!! prefix) ->
  r ∉ t_records (db w !!! prefix) ->
  is_Some (find_contact_by_phone env (r_phone r))
  /\ r_employee_telegram_id r = from_user_id update
  /\ r_timestamp r = env_now env
  /\ exists title responsible deadline contact_id,
       TaskAdd title (r_comment r) responsible deadline contact_id ∈ crm_log w'.
Proof.
  cbn zeta. unfold handle_message.
  destruct (get_department_by_chat_id (chat_id update)) as [department|];
    [|intros Hin Hout; tauto].
  destruct (truthy _).
  - unfold handle_duplicate_confirmation. cbn [snd].
    case_bool_decide; [|intros Hin Hout; tauto].
    destruct (_ !! "pending_record"%string) as [[| | | |pending]|];
      try (intros Hin Hout; tauto).
    intros Hin Hout.
    destruct (save_record_new_record _ _ _ _ _ _ _ _ _ _ _ _ Hin Hout)
      as (Hc & Hphone & He & Ht & Hlog). rewrite Hphone. tauto.
  - pose proof (parse_message_db (env_now env) (env_now env) (text update) department w)
      as Edb.
    destruct (parse_message _ _ _ _ w) as [[[[code phone] comment]|] w1]; cbn in Edb;
      [|cbn [snd]; rewrite Edb; intros Hin Hout; tauto].
    destruct (get_category_by_code code department w1) as [category|];
      [|cbn [snd reply_text_to db]; rewrite Edb; intros Hin Hout; tauto].
    destruct (get_employee_by_telegram_id _ _ w1) as [e|];
      (destruct (check_duplicate_record _ _ _ _ _ _ w1);
       [cbn [snd reply_text_to db]; rewrite Edb; intros Hin Hout; tauto|]);
      cbn [snd]; intros Hin Hout; rewrite <- Edb in Hout;
      destruct (save_record_new_record _ _ _ _ _ _ _ _ _ _ _ _ Hin Hout)
        as (Hc & Hphone & He' & Ht & Hlog); rewrite Hphone; tauto.
Qed.


(** X23: the employee listing returns exactly the employees of the
    department, each row once, in ascending order of their names. *)
Theorem get_all_employees_listing (department prefix : string) (w : World) :
  get_table_prefix department = Some prefix ->
  let result := get_all_employees department w in
  Sorted (fun a b => str_leb (e_name a) (e_name b) = true) result
  /\ (forall e, e ∈ result <-> e ∈ t_employees (db w !!! prefix))
  /\ length result = length (t_employees (db w !!! prefix)).
Proof.
  intros Hp result. subst result. unfold get_all_employees. rewrite Hp.
  split; [|split].
  - apply (order_by_sorted (fun a b => str_leb (e_name a) (e_name b))).
    intros a b. apply str_leb_total.
  - intros e. apply elem_of_order_by.
  - apply length_order_by.
Qed.

End Provenance.

Lemma handle_message_record_has_contact_witness :
  confirmed_record
    ∈ t_records (db (handle_message known_crm (demo_update (u "так")) awaiting_data
                                    recorded_world).2 !!! "support"%string)
  /\ (confirmed_record ∉ t_records (db recorded_world !!! "support"%string))
  /\ is_Some (find_contact_by_phone known_crm (r_phone confirmed_record)).
Proof.
  assert (Hin : confirmed_record
                  ∈ t_records (db (handle_message known_crm (demo_update (u "так"))
                                     awaiting_data recorded_world).2
                                 !!! "support"%string))
    by (vm_compute; right; left).
  assert (Hout : confirmed_record ∉ t_records (db recorded_world !!! "support"%string)).
  { intros Hc. vm_compute in Hc. apply list_elem_of_singleton in Hc. discriminate. }
  split; [exact Hin|]. split; [exact Hout|].
  exact (proj1 (handle_message_record_has_contact known_crm (demo_update (u "так"))
                  awaiting_data recorded_world "support" confirmed_record Hin Hout)).
Defined.

Lemma get_all_employees_listing_witness :
  get_table_prefix "support" = Some "support"%string
  /\ length (get_all_employees "support"
               (add_employee false 42 (u "Ann") 7 "support" demo_world).2) = 1%nat.
Proof.
  split; [reflexivity|].
  rewrite (proj2 (proj2 (get_all_employees_listing "support" "support"
                           (add_employee false 42 (u "Ann") 7 "support" demo_world).2
                           eq_refl))).
  reflexivity.
Defined.
